(** * Squish: compression helpers over the platform's compression streams

    The library (squish.js) is an adapter: [toStream] turns an input value
    into a [ReadableStream], [_transform] pipes it through the platform's
    [CompressionStream] or [DecompressionStream], and [fromStream] realises
    the requested output representation.  The development embeds these
    functions over an explicit model of the Web platform objects they use:
    streams live in a store, a call runs in a world and leaves a world, and
    a promise is described by how it settles.  An abort signal is taken in
    the state it has when the call is made.  The node-only [streamFile]
    runs over a [Node] environment of its own. *)

From Stdlib Require Import NArith ZArith String Ascii List Strings.Byte.
From Stdlib Require DecimalString.
From stdpp Require Import gmap strings list.

Local Open Scope string_scope.
Local Open Scope list_scope.

(** ** Bytes and JavaScript strings *)

Definition bytes := list byte.

(** A JavaScript string is a sequence of UTF-16 code units. *)
Definition code_unit := N.
Definition jsstring := list code_unit.

Definition byte_of_N (n : N) : byte := default x00 (Byte.of_N n).

(** The JavaScript string with the characters of an ASCII literal. *)
Definition of_ascii (s : string) : jsstring :=
  List.map N_of_ascii (list_ascii_of_string s).

Definition dquote : string := String (ascii_of_nat 34) EmptyString.

Module Utf8.

(** *** Encoding (the platform's TextEncoder and TextEncoderStream) *)

Definition REPLACEMENT : N := 0xFFFD.

Definition is_lead (u : code_unit) : bool := ((0xD800 <=? u) && (u <=? 0xDBFF))%N.
Definition is_trail (u : code_unit) : bool := ((0xDC00 <=? u) && (u <=? 0xDFFF))%N.

Definition pair_scalar (hi lo : code_unit) : N :=
  (0x10000 + N.shiftl (hi - 0xD800) 10 + (lo - 0xDC00))%N.

Definition continuation (c : N) (shift : N) : byte :=
  byte_of_N (N.lor 0x80 (N.land (N.shiftr c shift) 0x3F)).

Definition encode_scalar (c : N) : bytes :=
  if (c <? 0x80)%N then [byte_of_N c]
  else if (c <? 0x800)%N then
    [byte_of_N (N.lor 0xC0 (N.shiftr c 6)); continuation c 0]
  else if (c <? 0x10000)%N then
    [byte_of_N (N.lor 0xE0 (N.shiftr c 12)); continuation c 6; continuation c 0]
  else
    [byte_of_N (N.lor 0xF0 (N.shiftr c 18)); continuation c 12;
     continuation c 6; continuation c 0].

(** One code unit seen with no lead surrogate pending. *)
Definition convert_fresh (u : code_unit) : list N * option code_unit :=
  if is_lead u then ([], Some u)
  else if is_trail u then ([REPLACEMENT], None)
  else ([u], None).

(** "Convert code unit to scalar value": a pending lead surrogate pairs
    with a trail surrogate; before anything else it becomes U+FFFD and the
    unit is handled afresh. *)
Definition convert_unit (pending : option code_unit) (u : code_unit)
  : list N * option code_unit :=
  match pending with
  | Some hi =>
      if is_trail u then ([pair_scalar hi u], None)
      else let '(out, p) := convert_fresh u in (REPLACEMENT :: out, p)
  | None => convert_fresh u
  end.

(** The bytes emitted for one string chunk, and the surrogate left pending. *)
Fixpoint encode_units (pending : option code_unit) (s : jsstring)
  : bytes * option code_unit :=
  match s with
  | [] => ([], pending)
  | u :: rest =>
      let '(scalars, p) := convert_unit pending u in
      let '(out, p') := encode_units p rest in
      (flat_map encode_scalar scalars ++ out, p')
  end.

(** What the encoder flushes when its input closes. *)
Definition flush (pending : option code_unit) : bytes :=
  match pending with
  | Some _ => encode_scalar REPLACEMENT
  | None => []
  end.

(** UTF-8 encoding of a whole string. *)
Definition encode (s : jsstring) : bytes :=
  let '(out, p) := encode_units None s in out ++ flush p.

(** *** Decoding (the platform's "UTF-8 decode", as used by [Response.text]) *)

Record state := {
  code_point : N;
  bytes_seen : N;
  bytes_needed : N;
  lower : N;
  upper : N
}.

Definition init : state :=
  {| code_point := 0; bytes_seen := 0; bytes_needed := 0; lower := 0x80; upper := 0xBF |}.

Definition between (lo hi b : N) : bool := ((lo <=? b) && (b <=? hi))%N.

(** A byte seen while no sequence is open. *)
Definition start (b : N) : list N * state :=
  if (b <=? 0x7F)%N then ([b], init)
  else if between 0xC2 0xDF b then
    ([], {| code_point := N.land b 0x1F; bytes_seen := 0; bytes_needed := 1;
            lower := 0x80; upper := 0xBF |})
  else if between 0xE0 0xEF b then
    ([], {| code_point := N.land b 0xF; bytes_seen := 0; bytes_needed := 2;
            lower := if (b =? 0xE0)%N then 0xA0 else 0x80;
            upper := if (b =? 0xED)%N then 0x9F else 0xBF |})
  else if between 0xF0 0xF4 b then
    ([], {| code_point := N.land b 0x7; bytes_seen := 0; bytes_needed := 3;
            lower := if (b =? 0xF0)%N then 0x90 else 0x80;
            upper := if (b =? 0xF4)%N then 0x8F else 0xBF |})
  else ([REPLACEMENT], init).

Definition step (st : state) (b : N) : list N * state :=
  if (bytes_needed st =? 0)%N then start b
  else if negb (between (lower st) (upper st) b) then
    (* the byte is restored to the queue and read again from the initial state *)
    let '(out, st') := start b in (REPLACEMENT :: out, st')
  else
    let cp := N.lor (N.shiftl (code_point st) 6) (N.land b 0x3F) in
    let seen := (bytes_seen st + 1)%N in
    if (seen =? bytes_needed st)%N then ([cp], init)
    else ([], {| code_point := cp; bytes_seen := seen; bytes_needed := bytes_needed st;
                 lower := 0x80; upper := 0xBF |}).

Fixpoint decode_from (st : state) (bs : bytes) : list N :=
  match bs with
  | [] => if (bytes_needed st =? 0)%N then [] else [REPLACEMENT]
  | b :: rest =>
      let '(out, st') := step st (Byte.to_N b) in
      out ++ decode_from st' rest
  end.

Definition strip_bom (bs : bytes) : bytes :=
  match bs with
  | xef :: xbb :: xbf :: rest => rest
  | _ => bs
  end.

Definition to_utf16 (c : N) : jsstring :=
  if (c <? 0x10000)%N then [c]
  else let c' := (c - 0x10000)%N in
       [(0xD800 + N.shiftr c' 10)%N; (0xDC00 + N.land c' 0x3FF)%N].

Definition decode (bs : bytes) : jsstring :=
  flat_map to_utf16 (decode_from init (strip_bom bs)).

End Utf8.

(** ** [Uint8Array.prototype.toHex] and [toBase64] *)

Definition digit_of (alphabet : string) (n : N) : ascii :=
  nth (N.to_nat n) (list_ascii_of_string alphabet) "0"%char.

Definition hex_digits : string := "0123456789abcdef".

Fixpoint toHex (bs : bytes) : string :=
  match bs with
  | [] => EmptyString
  | b :: rest =>
      let n := Byte.to_N b in
      String (digit_of hex_digits (N.shiftr n 4))
        (String (digit_of hex_digits (N.land n 0xF)) (toHex rest))
  end.

Definition base64_digits (alphabet : string) : string :=
  "ABCDEFGHIJKLMNOPQRSTUVWXYZabcdefghijklmnopqrstuvwxyz0123456789" +:+
  (if alphabet =? "base64url" then "-_" else "+/").

Fixpoint toBase64 (alphabet : string) (bs : bytes) : string :=
  let digit := digit_of (base64_digits alphabet) in
  match bs with
  | [] => EmptyString
  | [a] =>
      let a := Byte.to_N a in
      String (digit (N.shiftr a 2))
        (String (digit (N.shiftl (N.land a 0x3) 4)) "==")
  | [a; b] =>
      let a := Byte.to_N a in
      let b := Byte.to_N b in
      String (digit (N.shiftr a 2))
        (String (digit (N.lor (N.shiftl (N.land a 0x3) 4) (N.shiftr b 4)))
           (String (digit (N.shiftl (N.land b 0xF) 2)) "="))
  | a :: b :: c :: rest =>
      let a := Byte.to_N a in
      let b := Byte.to_N b in
      let c := Byte.to_N c in
      String (digit (N.shiftr a 2))
        (String (digit (N.lor (N.shiftl (N.land a 0x3) 4) (N.shiftr b 4)))
           (String (digit (N.lor (N.shiftl (N.land b 0xF) 2) (N.shiftr c 6)))
              (String (digit (N.land c 0x3F)) (toBase64 alphabet rest))))
  end.

(** ** JavaScript values *)

(** Streams are objects with identity: a value refers to a stream by its
    address in the store of the [world]. *)
Definition stream_id := nat.

Inductive jsval :=
  | VUndefined
  | VNull
  | VBoolean (b : bool)
  | VNumber (n : Z)
  | VBigInt (n : Z)
  | VSymbol
  | VFunction
  | VString (s : jsstring)
  | VReadableStream (id : stream_id)
  | VArrayBuffer (b : bytes)
  | VDetachedArrayBuffer               (* an ArrayBuffer whose memory was transferred away *)
  | VUint8Array (b : bytes)            (* also node's Buffer *)
  | VBlob (type : string) (b : bytes)
  | VResponse (body : option stream_id)
  | VRequest (body : option stream_id)
  | VObject (class : string).          (* any other object: an Array, a plain Object, ... *)

(** What a [throw] carries: the library's own errors are all [TypeError]s
    told apart by their message; an abort signal's reason is any value. *)
Inductive thrown :=
  | TypeError (message : string)
  | Thrown (v : jsval).

Definition typeof (v : jsval) : string :=
  match v with
  | VUndefined => "undefined"
  | VBoolean _ => "boolean"
  | VNumber _ => "number"
  | VBigInt _ => "bigint"
  | VSymbol => "symbol"
  | VFunction => "function"
  | VString _ => "string"
  | _ => "object"
  end.

Record AbortSignal := { aborted : bool; reason : jsval }.

(** ** The store of streams *)

(** The chunks the library produces or accepts: binary chunks, and the string
    chunk [toStream] feeds to the text encoder. *)
Inductive chunk :=
  | CBytes (b : bytes)
  | CText (s : jsstring).

(** A stream is described by what it delivers once it is read to its end:
    its chunks in order and then a close, or a failure.  Chunks handed out
    before a failure are not recorded; no consumer used here keeps them.  A
    stream that was read to its end or cancelled is spent: closed, with
    nothing left, and disturbed. *)
Inductive outcome :=
  | Closes (chunks : list chunk)
  | Errors (e : thrown)
  | Spent.

Definition spent (o : outcome) : bool :=
  match o with
  | Spent => true
  | _ => false
  end.

Record rstream := {
  delivers : outcome;
  locked : bool;                (* a reader or a pipe holds the stream *)
  upstream : list stream_id     (* the streams piped into this one, nearest first *)
}.

(** The world a call runs in.  [reads] logs what the calls modelled here
    have read by the time they return or settle.  A pipe set up by
    [pipeThrough] pumps its source on its own once the call has returned;
    that pumping is entered in the log when the pipe's output is read to
    its end ([read_all]), by which time it has happened.  Until then the
    log is silent about the pipe: an unchanged log after an asynchronous
    call does not say that the piped input is untouched, and no property
    is stated that way. *)
Record world := {
  streams : gmap stream_id rstream;
  next_id : stream_id;
  reads : list (stream_id * nat);         (* (s, n): n chunks were read out of s *)
  object_urls : list (jsstring * (string * bytes));
                                          (* URL.createObjectURL's registry: URL, type, bytes *)
  url_names : nat -> jsstring             (* the URLs the platform hands out, in order *)
}.

(** URLs of the shape node hands out; the platform is free to choose others. *)
Definition sample_urls (n : nat) : jsstring :=
  of_ascii ("blob:nodedata:" +:+ DecimalString.NilZero.string_of_uint (Nat.to_uint n)).

Definition empty_world : world :=
  {| streams := ∅; next_id := 0; reads := []; object_urls := []; url_names := sample_urls |}.

Definition with_streams (w : world) (st : gmap stream_id rstream) : world :=
  {| streams := st; next_id := next_id w; reads := reads w; object_urls := object_urls w;
     url_names := url_names w |}.

(** ** Synchronous code and promises *)

Inductive result (A : Type) :=
  | Return (a : A)
  | Throw (e : thrown).
Arguments Return {A} a.
Arguments Throw {A} e.

(** A computation runs in a world and returns or throws. *)
Definition M (A : Type) := world -> result A * world.

Definition ret {A} (a : A) : M A := fun w => (Return a, w).
Definition throw {A} (e : thrown) : M A := fun w => (Throw e, w).
Definition bind {A B} (m : M A) (k : A -> M B) : M B :=
  fun w => match m w with
           | (Return a, w') => k a w'
           | (Throw e, w') => (Throw e, w')
           end.

Notation "x <- m ;; k" := (bind m (fun x => k))
  (at level 100, m at next level, right associativity).

(** A promise is described by how it settles, in the world where it does. *)
Inductive settled (A : Type) :=
  | Fulfilled (a : A)
  | Rejected (e : thrown).
Arguments Fulfilled {A} a.
Arguments Rejected {A} e.

Definition Promise (A : Type) := world -> settled A * world.

(** An [async function]: its body's return value fulfils the promise, a
    [throw] inside it rejects the promise. *)
Definition async {A} (body : M A) : Promise A :=
  fun w => match body w with
           | (Return a, w') => (Fulfilled a, w')
           | (Throw e, w') => (Rejected e, w')
           end.

(** [await p], and [return p] inside an async function. *)
Definition await {A} (p : Promise A) : M A :=
  fun w => match p w with
           | (Fulfilled a, w') => (Return a, w')
           | (Rejected e, w') => (Throw e, w')
           end.

(** [p.then(f)] for a callback that returns a plain value. *)
Definition then_ {A B} (p : Promise A) (f : A -> B) : Promise B :=
  fun w => match p w with
           | (Fulfilled a, w') => (Fulfilled (f a), w')
           | (Rejected e, w') => (Rejected e, w')
           end.

(** ** The platform *)

(** The codec behind [CompressionStream] and [DecompressionStream], and the
    chunking of [Blob.stream], are the platform's; the library fixes none of
    them. *)
Class Platform := {
  (** the chunks a [CompressionStream] of the format emits for the chunks written to it *)
  deflate_chunks : string -> list bytes -> list bytes;
  (** the same for a [DecompressionStream]; [None] when the data is not valid for the format *)
  inflate_chunks : string -> list bytes -> option (list bytes);
  (** the chunks in which [Blob.stream] delivers a blob's bytes *)
  blob_chunks : bytes -> list bytes;
  (** for a format beyond those of the standard: the error the codec
      constructors throw for it, or [None] when the platform knows it *)
  format_refusal : string -> option thrown
}.

(** The formats of the standard, which every platform knows. *)
Definition supported_formats : list string := ["gzip"; "deflate"; "deflate-raw"].

Definition supported_format (format : string) : bool :=
  existsb (String.eqb format) supported_formats.

Inductive transform :=
  | TextEncoderStream
  | CompressionStream (format : string)
  | DecompressionStream (format : string).

(** [new ReadableStream({ start(controller) { controller.enqueue(c); controller.close(); } })]
    and any other fresh stream. *)
Definition new_stream (o : outcome) (up : list stream_id) : M stream_id :=
  fun w =>
    let id := next_id w in
    (Return id,
     {| streams := <[id := {| delivers := o; locked := false; upstream := up |}]> (streams w);
        next_id := S id; reads := reads w; object_urls := object_urls w;
        url_names := url_names w |}).

Definition new_ReadableStream (c : chunk) : M stream_id := new_stream (Closes [c]) [].

(** The codecs take [BufferSource] chunks only. *)
Fixpoint buffer_sources (cs : list chunk) : option (list bytes) :=
  match cs with
  | [] => Some []
  | CBytes b :: rest => option_map (cons b) (buffer_sources rest)
  | CText _ :: _ => None
  end.

(** [String(chunk)]: a [Uint8Array] prints as its elements joined by commas. *)
Fixpoint join_decimal (bs : bytes) : string :=
  match bs with
  | [] => EmptyString
  | [b] => DecimalString.NilZero.string_of_uint (N.to_uint (Byte.to_N b))
  | b :: rest =>
      DecimalString.NilZero.string_of_uint (N.to_uint (Byte.to_N b)) +:+ "," +:+ join_decimal rest
  end.

Definition chunk_to_string (c : chunk) : jsstring :=
  match c with
  | CText s => s
  | CBytes b => of_ascii (join_decimal b)
  end.

(** [TextEncoderStream]: a chunk is enqueued for each written chunk that
    encodes to at least one byte, and a pending lead surrogate is flushed as
    U+FFFD. *)
Fixpoint text_encoder (pending : option code_unit) (cs : list chunk) : list chunk :=
  match cs with
  | [] => match pending with
          | Some _ => [CBytes (Utf8.flush pending)]
          | None => []
          end
  | c :: rest =>
      let '(out, p) := Utf8.encode_units pending (chunk_to_string c) in
      match out with
      | [] => text_encoder p rest
      | _ => CBytes out :: text_encoder p rest
      end
  end.

Section WithPlatform.

Context {P : Platform}.

(** The constructors take the formats of the standard, and reject any other
    format that the platform does not know. *)
Definition new_CompressionStream (format : string) : M transform :=
  if supported_format format then ret (CompressionStream format)
  else match format_refusal format with
       | Some e => throw e
       | None => ret (CompressionStream format)
       end.

Definition new_DecompressionStream (format : string) : M transform :=
  if supported_format format then ret (DecompressionStream format)
  else match format_refusal format with
       | Some e => throw e
       | None => ret (DecompressionStream format)
       end.

Definition transform_chunks (t : transform) (cs : list chunk) : outcome :=
  match t with
  | TextEncoderStream => Closes (text_encoder None cs)
  | CompressionStream format =>
      match buffer_sources cs with
      | Some bs => Closes (List.map CBytes (deflate_chunks format bs))
      | None => Errors (TypeError "The chunk is not a BufferSource")
      end
  | DecompressionStream format =>
      match buffer_sources cs with
      | Some bs =>
          match inflate_chunks format bs with
          | Some out => Closes (List.map CBytes out)
          | None => Errors (TypeError "The compressed data was not valid")
          end
      | None => Errors (TypeError "The chunk is not a BufferSource")
      end
  end.

Definition transform_outcome (t : transform) (o : outcome) : outcome :=
  match o with
  | Closes cs => transform_chunks t cs
  | Errors e => Errors e
  | Spent => transform_chunks t []     (* a closed source: the transform only flushes *)
  end.

(** [source.pipeThrough(transform, { signal })].  A locked source is
    refused.  With a signal that is already aborted the pipe shuts down at
    once: the source is cancelled unread and the returned stream fails
    with the signal's reason.  Otherwise the source is locked to the pipe
    and the returned stream delivers the transform of what the source
    delivers.  The call itself reads nothing.  Once it has returned the
    pipe pumps the source on its own, whether or not anyone reads the
    returned stream; how far it has got at a later moment is the
    platform's business and is not recorded in [reads]. *)
Definition pipeThrough (source : stream_id) (t : transform) (signal : option AbortSignal)
  : M stream_id :=
  fun w =>
    match streams w !! source with
    | None => (Throw (TypeError "pipeThrough is not a function"), w)
    | Some r =>
        if locked r then (Throw (TypeError "The stream is locked"), w)
        else
          match signal with
          | Some {| aborted := true; reason := why |} =>
              new_stream (Errors (Thrown why)) []
                (with_streams w
                   (<[source := {| delivers := Spent; locked := false;
                                   upstream := upstream r |}]> (streams w)))
          | _ =>
              new_stream (transform_outcome t (delivers r)) (source :: upstream r)
                (with_streams w
                   (<[source := {| delivers := delivers r; locked := true;
                                   upstream := upstream r |}]> (streams w)))
          end
    end.

(** [blob.stream()] *)
Definition Blob_stream (b : bytes) : M stream_id :=
  new_stream (Closes (List.map CBytes (blob_chunks b))) [].

End WithPlatform.

(** *** Reading a stream to its end *)

Definition chunk_count (st : gmap stream_id rstream) (s : stream_id) : nat :=
  match st !! s with
  | Some {| delivers := Closes cs |} => length cs
  | _ => 0
  end.

(** A source whose pipe has finished is closed and released. *)
Definition release (s : stream_id) (st : gmap stream_id rstream) : gmap stream_id rstream :=
  alter (fun r => {| delivers := Spent; locked := false; upstream := upstream r |}) s st.

(** Reading [s] to its end locks it and settles with the chunks of [s] or
    with its failure.  By then the pipes that feed [s] have pumped their
    sources to the end; those reads are entered in the log here, with the
    read of [s]. *)
Definition read_all (s : stream_id) : Promise (list chunk) :=
  fun w =>
    match streams w !! s with
    | None => (Rejected (TypeError "Not a ReadableStream"), w)
    | Some r =>
        if locked r then (Rejected (TypeError "Body is unusable"), w)
        else
          let sources := rev (upstream r) in
          let log := List.map (fun u => (u, chunk_count (streams w) u)) sources
                     ++ [(s, chunk_count (streams w) s)] in
          let st := <[s := {| delivers := delivers r; locked := true; upstream := upstream r |}]>
                      (foldr release (streams w) sources) in
          let w' := {| streams := st; next_id := next_id w; reads := reads w ++ log;
                       object_urls := object_urls w; url_names := url_names w |} in
          match delivers r with
          | Closes cs => (Fulfilled cs, w')
          | Errors e => (Rejected e, w')
          | Spent => (Fulfilled [], w')
          end
    end.

(** *** [Response] *)

Record response := { body : stream_id; content_type : option string }.

(** [new Response(stream, { headers: { 'Content-Type': type } })] refuses a
    stream that is locked or disturbed; it does not read it. *)
Definition new_Response (stream : stream_id) (type : option string) : M response :=
  fun w =>
    match streams w !! stream with
    | Some r =>
        if locked r || spent (delivers r) then
          (Throw (TypeError "Response body object should not be disturbed or locked"), w)
        else (Return {| body := stream; content_type := type |}, w)
    | None => (Throw (TypeError "Response body object should not be disturbed or locked"), w)
    end.

(** A body is made of [Uint8Array] chunks. *)
Definition Response_bytes (r : response) : Promise bytes :=
  async (cs <- await (read_all (body r)) ;;
         match buffer_sources cs with
         | Some bs => ret (concat bs)
         | None => throw (TypeError "Received non-Uint8Array chunk")
         end).

(** The blob's type is the body's content type.  The platform validates
    the header value, parses it as a MIME type and serialises it again;
    that leaves 'application/octet-stream', the default and the only type
    [compress] and [decompress] pass, as it is.  What the platform makes of
    other values is outside the model, and a Blob's type is stated for the
    default type only. *)
Definition Response_blob (r : response) : Promise (string * bytes) :=
  then_ (Response_bytes r) (fun b => (default EmptyString (content_type r), b)).

Definition Response_text (r : response) : Promise jsstring :=
  then_ (Response_bytes r) Utf8.decode.

(** A [Response] is not a thenable: the property [then] is undefined on it,
    and calling it throws. *)
Definition Response_then {A} (r : response) (callback : bytes -> A) : M A :=
  throw (TypeError "(intermediate value).then is not a function").

(** [URL.createObjectURL(blob)] registers the blob under a URL of the
    platform's choosing, the next of [url_names], and returns that URL. *)
Definition createObjectURL (blob : string * bytes) : M jsstring :=
  fun w =>
    let u := url_names w (length (object_urls w)) in
    (Return u,
     {| streams := streams w; next_id := next_id w; reads := reads w;
        object_urls := object_urls w ++ [(u, blob)]; url_names := url_names w |}).

(** ** The library *)

Definition GZIP : string := "gzip".
Definition DEFLATE : string := "deflate".
Definition DEFLATE_RAW : string := "deflate-raw".
Definition DEFAULT_FORMAT : string := GZIP.

(** The options object of [compress], [decompress] and their helpers; an
    absent (or [undefined]) property is [None]. *)
Record options := {
  output : option string;
  format : option string;
  signal : option AbortSignal
}.

(** The options object [_transform] destructures. *)
Record transform_options := {
  t_format : option string;
  t_output : option string;
  t_type : option string;
  t_signal : option AbortSignal
}.

(** [signal instanceof AbortSignal && signal.aborted], with the reason to throw. *)
Definition aborted_reason (signal : option AbortSignal) : option jsval :=
  match signal with
  | Some sg => if aborted sg then Some (reason sg) else None
  | None => None
  end.

(** What [new Uint8Array(input)] throws for a detached buffer. *)
Definition detached_error : thrown :=
  TypeError "Cannot perform Construct on a detached ArrayBuffer".

Section Library.

Context {P : Platform}.

Definition toStream (input : jsval) : M stream_id :=
  match input with
  | VString s =>
      source <- new_ReadableStream (CText s) ;;
      pipeThrough source TextEncoderStream None
  | _ =>
      if negb (typeof input =? "object") then
        throw (TypeError ("Invalid input type: " +:+ typeof input +:+ "."))
      else
        match input with
        | VReadableStream s => ret s
        | VArrayBuffer b => new_ReadableStream (CBytes b)
        | VDetachedArrayBuffer =>
            (* [start] throws at [new Uint8Array(input)]; the stream's
               constructor passes the exception on *)
            throw detached_error
        | VUint8Array b => new_ReadableStream (CBytes b)
        | VBlob _ b => Blob_stream b
        | VResponse (Some s) | VRequest (Some s) => ret s
        | _ => throw (TypeError "Unsupported input type.")
        end
  end.

Definition fromStream (stream : jsval) (output : option string) (type : option string)
  : Promise jsval :=
  async (
    let output := default "blob" output in
    let type := default "application/octet-stream" type in
    match stream with
    | VReadableStream s =>
        if output =? "stream" then ret stream
        else if output =? "response" then
          r <- new_Response s None ;; ret (VResponse (Some (body r)))
        else if output =? "blob" then
          r <- new_Response s (Some type) ;;
          blob <- await (Response_blob r) ;; ret (VBlob (fst blob) (snd blob))
        else if output =? "buffer" then
          r <- new_Response s None ;;
          b <- await (Response_bytes r) ;; ret (VArrayBuffer b)
        else if output =? "bytes" then
          r <- new_Response s None ;;
          b <- await (Response_bytes r) ;; ret (VUint8Array b)
        else if output =? "hex" then
          r <- new_Response s None ;;
          h <- await (then_ (Response_bytes r) toHex) ;; ret (VString (of_ascii h))
        else if output =? "base64" then
          r <- new_Response s None ;;
          t <- Response_then r (toBase64 "base64") ;; ret (VString (of_ascii t))
        else if output =? "base64url" then
          r <- new_Response s None ;;
          t <- Response_then r (toBase64 "base64url") ;; ret (VString (of_ascii t))
        else if output =? "url" then
          r <- new_Response s (Some type) ;;
          blob <- await (Response_blob r) ;;
          url <- createObjectURL blob ;; ret (VString url)
        else if output =? "text" then
          r <- new_Response s (Some type) ;;
          t <- await (Response_text r) ;; ret (VString t)
        else
          throw (TypeError ("Unsupported output: " +:+ dquote +:+ output +:+ "." +:+ dquote))
    | _ => throw (TypeError "Stream must be a `ReadableStream` instance.")
    end).

Definition _transform (method : string) (data : jsval) (o : transform_options)
  : Promise jsval :=
  async (
    let format := default DEFAULT_FORMAT (t_format o) in
    let output := default "blob" (t_output o) in
    let type := default "application/octet-stream" (t_type o) in
    let signal := t_signal o in
    source <- toStream data ;;
    transform <- (if method =? "compress" then new_CompressionStream format
                  else new_DecompressionStream format) ;;
    stream <- pipeThrough source transform signal ;;
    await (fromStream (VReadableStream stream) (Some output) (Some type))).

Definition compress (data : jsval) (o : options) : Promise jsval :=
  async (
    let output := default "blob" (output o) in
    let format := default DEFAULT_FORMAT (format o) in
    let signal := signal o in
    await (_transform "compress" data
             {| t_output := Some output; t_format := Some format;
                t_type := None; t_signal := signal |})).

Definition compressStream (stream : stream_id) (o : options) : M stream_id :=
  let format := default "gzip" (format o) in
  let signal := signal o in
  match aborted_reason signal with
  | Some why => throw (Thrown why)
  | None =>
      (* the signal goes to the constructor, which takes no options *)
      transform <- new_CompressionStream format ;;
      pipeThrough stream transform None
  end.

Definition decompress (data : jsval) (o : options) : Promise jsval :=
  let output := output o in
  let format := default DEFAULT_FORMAT (format o) in
  let signal := signal o in
  _transform "decompress" data
    {| t_output := output; t_format := Some format; t_type := None; t_signal := signal |}.

Definition decompressStream (stream : stream_id) (o : options) : M stream_id :=
  let format := default "gzip" (format o) in
  let signal := signal o in
  match aborted_reason signal with
  | Some why => throw (Thrown why)
  | None =>
      transform <- new_DecompressionStream format ;;
      pipeThrough stream transform None
  end.

Definition gzip (data : jsval) (o : options) : Promise jsval :=
  async (
    let output := default "blob" (output o) in
    let signal := signal o in
    await (_transform "compress" data
             {| t_output := Some output; t_format := Some GZIP;
                t_type := None; t_signal := signal |})).

Definition gzipStream (stream : stream_id) (o : options) : M stream_id :=
  compressStream stream {| output := None; format := Some GZIP; signal := signal o |}.

Definition gunzip (data : jsval) (o : options) : Promise jsval :=
  _transform "decompress" data
    {| t_output := output o; t_format := Some GZIP; t_type := None; t_signal := signal o |}.

Definition gunzipStream (stream : stream_id) (o : options) : M stream_id :=
  decompressStream stream {| output := None; format := Some GZIP; signal := signal o |}.

Definition deflate (data : jsval) (o : options) : Promise jsval :=
  async (
    let output := default "blob" (output o) in
    let signal := signal o in
    await (_transform "compress" data
             {| t_output := Some output; t_format := Some DEFLATE;
                t_type := None; t_signal := signal |})).

Definition deflateRaw (data : jsval) (o : options) : Promise jsval :=
  async (
    let output := default "blob" (output o) in
    let signal := signal o in
    await (_transform "compress" data
             {| t_output := Some output; t_format := Some DEFLATE_RAW;
                t_type := None; t_signal := signal |})).

Definition deflateStream (stream : stream_id) (o : options) : M stream_id :=
  compressStream stream {| output := None; format := Some DEFLATE; signal := signal o |}.

Definition deflateRawStream (stream : stream_id) (o : options) : M stream_id :=
  compressStream stream {| output := None; format := Some DEFLATE_RAW; signal := signal o |}.

Definition inflate (data : jsval) (o : options) : Promise jsval :=
  _transform "decompress" data
    {| t_output := output o; t_format := Some DEFLATE; t_type := None; t_signal := signal o |}.

Definition inflateRaw (data : jsval) (o : options) : Promise jsval :=
  _transform "decompress" data
    {| t_output := output o; t_format := Some DEFLATE_RAW; t_type := None;
       t_signal := signal o |}.

Definition inflateStream (stream : stream_id) (o : options) : M stream_id :=
  decompressStream stream {| output := None; format := Some DEFLATE; signal := signal o |}.

Definition inflateRawStream (stream : stream_id) (o : options) : M stream_id :=
  decompressStream stream {| output := None; format := Some DEFLATE_RAW; signal := signal o |}.

End Library.

(** ** A platform to run the library on

    Its codec only frames the payload with the format's magic bytes, and
    its blobs stream as one chunk. *)

Definition magic (format : string) : bytes :=
  if format =? "gzip" then [x1f; x8b]
  else if format =? "deflate" then [x78; x9c]
  else [].

Fixpoint strip_prefix (prefix bs : bytes) : option bytes :=
  match prefix, bs with
  | [], _ => Some bs
  | p :: prefix', b :: bs' =>
      if Byte.eqb p b then strip_prefix prefix' bs' else None
  | _ :: _, [] => None
  end.

(** The error of a codec constructor that knows the three formats only. *)
Definition invalid_format (format : string) : thrown :=
  TypeError ("The argument 'format' is invalid. Received '" +:+ format +:+ "'").

Definition framing : Platform :=
  {| deflate_chunks := fun format cs => [magic format ++ concat cs];
     inflate_chunks := fun format cs =>
       option_map (fun b => [b]) (strip_prefix (magic format) (concat cs));
     blob_chunks := fun b => [b];
     format_refusal := fun format => Some (invalid_format format) |}.

Definition hello : jsstring := of_ascii "Hello, World!".
Definition no_options : options := {| output := None; format := None; signal := None |}.
Definition with_output (sel : string) : options := {| output := Some sel; format := None; signal := None |}.

Definition with_format (f : string) (o : options) : options :=
  {| output := output o; format := Some f; signal := signal o |}.

(** The output selectors [fromStream] has a case for. *)
Definition supported_outputs : list string :=
  ["stream"; "response"; "blob"; "buffer"; "bytes"; "hex"; "base64"; "base64url"; "url"; "text"].

Definition unsupported_output (sel : string) : thrown :=
  TypeError ("Unsupported output: " +:+ dquote +:+ sel +:+ "." +:+ dquote).

(** The objects [toStream] has an [instanceof] case for. *)
Definition recognized (v : jsval) : bool :=
  match v with
  | VReadableStream _ | VArrayBuffer _ | VDetachedArrayBuffer | VUint8Array _ | VBlob _ _
  | VResponse _ | VRequest _ => true
  | _ => false
  end.

(** The error [toStream] throws for an input it has no case for. *)
Definition input_error (v : jsval) : thrown :=
  if typeof v =? "object" then TypeError "Unsupported input type."
  else TypeError ("Invalid input type: " +:+ typeof v +:+ ".").

(** A stream of the store that no reader or pipe holds. *)
Definition unlocked (w : world) (s : stream_id) : Prop :=
  exists r, streams w !! s = Some r /\ locked r = false.

(** A stream a [Response] takes as its body: neither locked nor spent. *)
Definition usable (w : world) (s : stream_id) : Prop :=
  exists r, streams w !! s = Some r /\ locked r = false /\ spent (delivers r) = false.

(** The bytes a stream of binary chunks delivers. *)
Definition stream_bytes (w : world) (s : stream_id) : option bytes :=
  match streams w !! s with
  | Some {| delivers := Closes cs |} => option_map (@concat byte) (buffer_sources cs)
  | _ => None
  end.

(** The inputs that hold a byte sequence in memory. *)
Definition container_bytes (v : jsval) : option bytes :=
  match v with
  | VArrayBuffer b | VUint8Array b | VBlob _ b => Some b
  | _ => None
  end.

Definition only_format (f : string) : options :=
  {| output := None; format := Some f; signal := None |}.

(** What the Compression Streams standard asks of the codec: the bytes a
    [CompressionStream] emits, however they are chunked on the way, make a
    [DecompressionStream] of the same format emit the bytes that were
    compressed. *)
Definition codec_inverts (P : Platform) : Prop :=
  forall (f : string) (cs ds : list bytes),
    supported_format f = true ->
    concat ds = concat (deflate_chunks f cs) ->
    exists out, inflate_chunks f ds = Some out /\ concat out = concat cs.

(** [Blob.stream] delivers the blob's bytes, in order. *)
Definition blob_stream_faithful (P : Platform) : Prop :=
  forall b : bytes, concat (blob_chunks b) = b.

(** Strings of ASCII characters. *)
Definition is_ascii (s : jsstring) : Prop := Forall (fun u => (u < 0x80)%N) s.

Definition then_error : thrown := TypeError "(intermediate value).then is not a function".

(** ** Reading files (node only) *)

(** A [URL] object, as far as [streamFile] looks at it; [href] is what the
    URL prints as. *)
Record url := { href : string; protocol : string; pathname : string }.

(** The [path] argument: a [URL] object or any other value. *)
Inductive file_path :=
  | PathURL (u : url)
  | PathValue (v : jsval).

(** What [streamFile] takes from its environment. *)
Class Node := {
  (** the result of [process.cwd()]; [None] where [process.cwd] is not a function *)
  cwd : option string;
  (** [new URL(path, base)]; [None] when the constructor throws *)
  URL_parse : jsstring -> string -> option url;
  (** the chunks [createReadStream(pathname)] yields, or the error it fails with *)
  read_file : string -> result (list bytes)
}.

Section NodeLibrary.

Context {E : Node}.

(** The stream [streamFile] constructs: [start] enqueues the chunks of the
    file and closes; a read error errors the stream (the [close] of the
    outer [finally] then throws inside [start] and changes nothing). *)
Definition file_stream (u : url) : M stream_id :=
  match read_file (pathname u) with
  | Return cs => new_stream (Closes (List.map CBytes cs)) []
  | Throw e => new_stream (Errors e) []
  end.

(** The branches of [streamFile] for a [URL] object. *)
Definition streamFile_url (u : url) (signal : option AbortSignal) : M stream_id :=
  if negb (protocol u =? "file:") then
    throw (TypeError ("Cannot read non-file URL: " +:+ dquote +:+ href u +:+ dquote +:+ "."))
  else
    match aborted_reason signal with
    | Some why => throw (Thrown why)
    | None => file_stream u
    end.

(** [streamFile(path, { signal })].  For a string the function calls itself
    with the URL resolved against the working directory; that call passes
    the node test again and goes on to the URL branches. *)
Definition streamFile (path : file_path) (o : options) : M stream_id :=
  let signal := signal o in
  match cwd with
  | None => throw (Thrown (VObject "Error"))    (* 'This function is only available in node.' *)
  | Some dir =>
      match path with
      | PathValue (VString s) =>
          match URL_parse s ("file://" +:+ dir) with
          | Some u => streamFile_url u signal
          | None => throw (TypeError "Invalid URL")
          end
      | PathValue _ => throw (TypeError "Path must be a `file:` URL.")
      | PathURL u => streamFile_url u signal
      end
  end.

End NodeLibrary.

(** A plain file name: a lower-case letter followed by lower-case letters,
    digits and dots. *)
Definition plain_name (path : jsstring) : bool :=
  let letter u := ((97 <=? u) && (u <=? 122))%N in
  let digit u := ((48 <=? u) && (u <=? 57))%N in
  match path with
  | u :: rest => letter u && forallb (fun v => letter v || digit v || (v =? 46)%N) rest
  | [] => false
  end.

(** A node environment to run [streamFile] in: the working directory is
    [/srv] and every file but [/missing] has the same two chunks.  Its
    [URL_parse] answers for plain file names only: against [file:///srv]
    such a name replaces the last segment of the base.  It parses nothing
    else. *)
Definition sample_node : Node :=
  {| cwd := Some "/srv";
     URL_parse := fun path base =>
       let name := string_of_list_ascii (List.map ascii_of_N path) in
       if plain_name path && (base =? "file:///srv") then
         Some {| href := "file:///" +:+ name; protocol := "file:";
                 pathname := "/" +:+ name |}
       else None;
     read_file := fun name =>
       if name =? "/missing" then Throw (Thrown (VObject "Error"))
       else Return [[x68; x65]; [x79]] |}.

(** The URL [streamFile] ends up reading for a path: the [URL] object
    itself, or the URL a string resolves to against the working directory. *)
Definition resolves_to {E : Node} (path : file_path) (u : url) : Prop :=
  match path with
  | PathURL u' => u' = u
  | PathValue (VString s) =>
      exists dir, cwd = Some dir /\ URL_parse s ("file://" +:+ dir) = Some u
  | PathValue _ => False
  end.

(** ** Sample worlds *)

Definition sample_stream : rstream :=
  {| delivers := Closes [CBytes [x68; x69]; CBytes [x21]]; locked := false; upstream := [] |}.

(** A world with one stream, at address 0. *)
Definition world_with (r : rstream) : world :=
  {| streams := {[ 0 := r ]}; next_id := 1; reads := []; object_urls := [];
     url_names := sample_urls |}.

Definition sample_world : world := world_with sample_stream.

Definition locked_world : world :=
  world_with {| delivers := delivers sample_stream; locked := true; upstream := [] |}.


Definition notes_url : url :=
  {| href := "file:///notes.txt"; protocol := "file:"; pathname := "/notes.txt" |}.

Definition aborted_with (why : jsval) : options :=
  {| output := None; format := None; signal := Some {| aborted := true; reason := why |} |}.

(** ** Vocabulary of the further properties *)

(** Every address from [next_id] on is free. *)
Definition store_fresh (w : world) : Prop :=
  forall s, next_id w <= s -> streams w !! s = None.

(** The world [read_all] leaves when it reads the unlocked stream [s],
    whose record is [r]. *)
Definition after_read (s : stream_id) (r : rstream) (w : world) : world :=
  {| streams :=
       <[s := {| delivers := delivers r; locked := true; upstream := upstream r |}]>
         (foldr release (streams w) (rev (upstream r)));
     next_id := next_id w;
     reads := reads w
              ++ (List.map (fun u => (u, chunk_count (streams w) u)) (rev (upstream r))
                  ++ [(s, chunk_count (streams w) s)]);
     object_urls := object_urls w;
     url_names := url_names w |}.

(** The selectors that read the stream to its end. *)
Definition reading_outputs : list string := ["blob"; "buffer"; "bytes"; "hex"; "url"; "text"].

(** The selectors whose result [toStream] accepts again. *)
Definition container_outputs : list string := ["stream"; "response"; "blob"; "buffer"; "bytes"].

Definition body_error : thrown :=
  TypeError "Response body object should not be disturbed or locked".

(** * Properties *)

Section Properties.

Context {P : Platform}.

(** ** Helper equations *)

Lemma async_await {A} (p : Promise A) (w : world) : async (await p) w = p w.
Proof. unfold async, await. destruct (p w) as [[a | e] w']; reflexivity. Qed.

Lemma async_bind {A B} (m : M A) (k : A -> M B) (w : world) :
  async (x <- m ;; k x) w =
  match m w with
  | (Return a, w') => async (k a) w'
  | (Throw e, w') => (Rejected e, w')
  end.
Proof. unfold async, bind. destruct (m w) as [[a | e] w']; reflexivity. Qed.

Lemma toStream_unhandled (data : jsval) (w : world) :
  typeof data <> "string" -> recognized data = false ->
  toStream data w = (Throw (input_error data), w).
Proof.
  intros Hstr Hrec.
  destruct data; try discriminate Hrec; try reflexivity.
  exfalso. apply Hstr. reflexivity.
Qed.

Lemma _transform_toStream_throws (method : string) (data : jsval) (o : transform_options)
      (e : thrown) (w w' : world) :
  toStream data w = (Throw e, w') ->
  _transform method data o w = (Rejected e, w').
Proof. intros H. unfold _transform, async, bind. rewrite H. reflexivity. Qed.

Lemma compress_toStream_throws (data : jsval) (o : options) (e : thrown) (w w' : world) :
  toStream data w = (Throw e, w') ->
  compress data o w = (Rejected e, w').
Proof.
  intros H. unfold compress. rewrite async_await.
  apply _transform_toStream_throws, H.
Qed.

Lemma decompress_toStream_throws (data : jsval) (o : options) (e : thrown) (w w' : world) :
  toStream data w = (Throw e, w') ->
  decompress data o w = (Rejected e, w').
Proof. intros H. unfold decompress. apply _transform_toStream_throws, H. Qed.

(** ** The named helpers *)

(** C9: each named helper is the generic operation with the format fixed,
    whatever the data, the output selector and the signal: [gzip],
    [deflate] and [deflateRaw] are [compress], [gunzip], [inflate] and
    [inflateRaw] are [decompress], and the stream helpers are
    [compressStream] and [decompressStream], at 'gzip', 'deflate' and
    'deflate-raw'. *)
Theorem helpers_fix_the_format (data : jsval) (stream : stream_id) (o : options) :
  (gzip data o = compress data (with_format "gzip" o)
   /\ gunzip data o = decompress data (with_format "gzip" o)
   /\ deflate data o = compress data (with_format "deflate" o)
   /\ inflate data o = decompress data (with_format "deflate" o)
   /\ deflateRaw data o = compress data (with_format "deflate-raw" o)
   /\ inflateRaw data o = decompress data (with_format "deflate-raw" o))
  /\ (gzipStream stream o = compressStream stream (with_format "gzip" o)
      /\ gunzipStream stream o = decompressStream stream (with_format "gzip" o)
      /\ deflateStream stream o = compressStream stream (with_format "deflate" o)
      /\ inflateStream stream o = decompressStream stream (with_format "deflate" o)
      /\ deflateRawStream stream o = compressStream stream (with_format "deflate-raw" o)
      /\ inflateRawStream stream o = decompressStream stream (with_format "deflate-raw" o)).
Proof. repeat split; reflexivity. Qed.

(** ** The chunk source adapter *)

(** C7: an input that is already a stream is returned as it is: the same
    stream object, in an unchanged world (nothing allocated, locked or
    read). *)
Theorem toStream_stream_identity (s : stream_id) (w : world) :
  toStream (VReadableStream s) w = (Return s, w).
Proof. reflexivity. Qed.

(** C10: a Request or Response without a body stream is refused with the
    unsupported-input error by [toStream], and so by [compress] and
    [decompress]; it is not read as an empty byte sequence. *)
Theorem bodyless_message_rejected (o : options) (w : world) :
  let e := TypeError "Unsupported input type." in
  (toStream (VResponse None) w = (Throw e, w)
   /\ compress (VResponse None) o w = (Rejected e, w)
   /\ decompress (VResponse None) o w = (Rejected e, w))
  /\ (toStream (VRequest None) w = (Throw e, w)
      /\ compress (VRequest None) o w = (Rejected e, w)
      /\ decompress (VRequest None) o w = (Rejected e, w)).
Proof.
  repeat split;
    first [ reflexivity
          | apply compress_toStream_throws; reflexivity
          | apply decompress_toStream_throws; reflexivity ].
Qed.

(** C5: an input that is neither a string nor an object of a recognized
    class makes [compress] and [decompress] reject with the input error,
    and leaves the world as it was: no stream was created, so no chunk was
    produced and nothing of the attempt can be observed. *)
Theorem invalid_input_rejected (data : jsval) (o : options) (w : world) :
  typeof data <> "string" -> recognized data = false ->
  compress data o w = (Rejected (input_error data), w)
  /\ decompress data o w = (Rejected (input_error data), w).
Proof.
  intros Hstr Hrec. split.
  - apply compress_toStream_throws, toStream_unhandled; assumption.
  - apply decompress_toStream_throws, toStream_unhandled; assumption.
Qed.

(** ** The streaming forms *)

(** C4: with a signal that is already aborted, [compressStream] and
    [decompressStream] throw the signal's reason synchronously and leave
    the world as it was: the source stream is neither locked nor read. *)
Theorem aborted_signal_throws_first (stream : stream_id) (out fmt : option string)
        (why : jsval) (w : world) :
  let o := {| output := out; format := fmt;
              signal := Some {| aborted := true; reason := why |} |} in
  compressStream stream o w = (Throw (Thrown why), w)
  /\ decompressStream stream o w = (Throw (Thrown why), w).
Proof. split; reflexivity. Qed.

(** ** Stepping through the pipeline *)

Lemma buffer_sources_bytes (l : list bytes) : buffer_sources (List.map CBytes l) = Some l.
Proof. induction l as [| b l IH]; simpl; [| rewrite IH]; reflexivity. Qed.


Lemma pipeThrough_reads (src : stream_id) (t : transform) (sg : option AbortSignal)
      (w w' : world) (res : result stream_id) :
  pipeThrough src t sg w = (res, w') -> reads w' = reads w.
Proof.
  unfold pipeThrough. destruct (streams w !! src) as [r |].
  - destruct (locked r).
    + intros [= _ <-]. reflexivity.
    + destruct sg as [[[] why] |]; intros [= _ <-]; reflexivity.
  - intros [= _ <-]. reflexivity.
Qed.

Lemma transform_outcome_not_spent (t : transform) (o : outcome) :
  spent (transform_outcome t o) = false.
Proof.
  destruct o as [cs | e |], t; cbn [transform_outcome transform_chunks spent];
    try reflexivity;
    repeat match goal with
           | |- context [match ?x with _ => _ end] => destruct x
           end; reflexivity.
Qed.

Lemma pipeThrough_unlocked (src : stream_id) (t : transform) (sg : option AbortSignal)
      (w : world) :
  unlocked w src ->
  exists w', pipeThrough src t sg w = (Return (next_id w), w')
    /\ usable w' (next_id w) /\ reads w' = reads w.
Proof.
  intros (r & Hr & Hl). unfold pipeThrough. rewrite Hr, Hl.
  destruct sg as [[[] why] |];
    (eexists; split; [reflexivity |]; split; [| reflexivity];
     eexists; split; [simpl; apply lookup_insert_eq |]; split; [reflexivity |];
     cbn [delivers]; first [reflexivity | apply transform_outcome_not_spent]).
Qed.

(** Whatever the signal, the pipe takes its source: afterwards the source
    is locked to the pipe or, when the signal was aborted, cancelled. *)
Lemma pipeThrough_takes_source (src : stream_id) (t : transform) (sg : option AbortSignal)
      (w : world) (r : rstream) :
  streams w !! src = Some r -> locked r = false -> streams w !! next_id w = None ->
  exists w' r',
    pipeThrough src t sg w = (Return (next_id w), w')
    /\ streams w' !! src = Some r' /\ (locked r' = true \/ delivers r' = Spent).
Proof.
  intros Hr Hl Hfree.
  assert (Hne : next_id w <> src) by (intros E; rewrite E in Hfree; congruence).
  unfold pipeThrough. rewrite Hr, Hl.
  destruct sg as [[[] why] |];
    (do 2 eexists; split; [reflexivity |]; split;
     [ cbn; rewrite lookup_insert_ne by exact Hne; apply lookup_insert_eq
     | cbn; auto ]).
Qed.

Lemma pipeThrough_delivers (src : stream_id) (t : transform) (sg : option AbortSignal)
      (w : world) (r : rstream) :
  streams w !! src = Some r -> locked r = false -> aborted_reason sg = None ->
  exists w', pipeThrough src t sg w = (Return (next_id w), w')
    /\ streams w' !! next_id w =
         Some {| delivers := transform_outcome t (delivers r); locked := false;
                 upstream := src :: upstream r |}.
Proof.
  intros Hr Hl Hsg. unfold pipeThrough. rewrite Hr, Hl.
  destruct sg as [[[] why] |]; try discriminate Hsg;
    (eexists; split; [reflexivity |]; simpl; apply lookup_insert_eq).
Qed.

Lemma toStream_reads (data : jsval) (w w' : world) (res : result stream_id) :
  toStream data w = (res, w') -> reads w' = reads w.
Proof.
  destruct data as [| | | | | | | s | s | b | | b | ty b | [s |] | [s |] | c];
    simpl; try (intros [= _ <-]; reflexivity).
  unfold bind, new_ReadableStream, new_stream. intros H.
  apply pipeThrough_reads in H. exact H.
Qed.

(** [_transform] once the pipe stands: [fromStream] is applied to the
    stream the pipe returned. *)
Lemma _transform_after_pipe (method : string) (data : jsval) (o : transform_options)
      (w w1 w2 : world) (src s2 : stream_id) :
  let f := default DEFAULT_FORMAT (t_format o) in
  let t := if method =? "compress" then CompressionStream f else DecompressionStream f in
  toStream data w = (Return src, w1) -> supported_format f = true ->
  pipeThrough src t (t_signal o) w1 = (Return s2, w2) ->
  _transform method data o w =
  fromStream (VReadableStream s2) (Some (default "blob" (t_output o)))
    (Some (default "application/octet-stream" (t_type o))) w2.
Proof.
  intros f t Hts Hsup Hpipe. subst f t.
  unfold _transform. rewrite async_bind, Hts, async_bind.
  unfold new_CompressionStream, new_DecompressionStream. rewrite Hsup.
  destruct (method =? "compress"); unfold ret;
    rewrite async_bind, Hpipe, async_await; reflexivity.
Qed.

(** The part of [_transform] before [fromStream]: an accepted input is
    piped through the codec, and the stream handed on can be a body. *)
Lemma _transform_pipes (method : string) (data : jsval) (o : transform_options)
      (w w1 : world) (src : stream_id) :
  toStream data w = (Return src, w1) -> unlocked w1 src ->
  supported_format (default DEFAULT_FORMAT (t_format o)) = true ->
  exists w2,
    usable w2 (next_id w1)
    /\ _transform method data o w =
       fromStream (VReadableStream (next_id w1)) (Some (default "blob" (t_output o)))
         (Some (default "application/octet-stream" (t_type o))) w2.
Proof.
  intros Hts Hun Hsup.
  destruct (pipeThrough_unlocked src
              (if method =? "compress"
               then CompressionStream (default DEFAULT_FORMAT (t_format o))
               else DecompressionStream (default DEFAULT_FORMAT (t_format o)))
              (t_signal o) w1 Hun) as (w2 & Hpipe & Hun2 & _).
  exists w2. split; [exact Hun2 |].
  apply (_transform_after_pipe method data o w w1 w2 src (next_id w1) Hts Hsup Hpipe).
Qed.

Lemma fromStream_unsupported (s : stream_id) (sel : string) (ty : option string) (w : world) :
  ~ In sel supported_outputs ->
  fromStream (VReadableStream s) (Some sel) ty w = (Rejected (unsupported_output sel), w).
Proof.
  intros Hsel. unfold fromStream, async.
  change (default "blob" (Some sel)) with sel.
  repeat match goal with
         | |- context [if (sel =? ?lit) then _ else _] =>
             destruct (String.eqb_spec sel lit) as [-> | _];
             [exfalso; apply Hsel; simpl; tauto |]
         end.
  reflexivity.
Qed.

(** ** The output materializer *)

(** C3, as the code has it: for an input [toStream] accepts, giving a
    stream that is not locked, and a supported format, an output selector
    outside the supported set makes [compress] and [decompress] reject with
    the unsupported-output error.  The selector is looked at last: when
    the error is raised the input has already been piped into the codec, so
    its stream is locked to that pipe (or cancelled, if the signal was
    aborted) and its consumption has begun.  (The store's next address is
    free.) *)
Theorem unsupported_output_rejected (data : jsval) (o : options) (sel : string)
        (w w1 : world) (src : stream_id) :
  output o = Some sel -> ~ In sel supported_outputs ->
  supported_format (default DEFAULT_FORMAT (format o)) = true ->
  toStream data w = (Return src, w1) -> unlocked w1 src ->
  streams w1 !! next_id w1 = None ->
  (exists w' r', compress data o w = (Rejected (unsupported_output sel), w')
                 /\ streams w' !! src = Some r'
                 /\ (locked r' = true \/ delivers r' = Spent))
  /\ (exists w' r', decompress data o w = (Rejected (unsupported_output sel), w')
                    /\ streams w' !! src = Some r'
                    /\ (locked r' = true \/ delivers r' = Spent)).
Proof.
  intros Hout Hsel Hsup Hts (r & Hr & Hl) Hfree. split.
  - destruct (pipeThrough_takes_source src
                (CompressionStream (default DEFAULT_FORMAT (format o))) (signal o)
                w1 r Hr Hl Hfree) as (w2 & r' & Hpipe & Hr' & Hstate).
    exists w2, r'. split; [| split; assumption].
    unfold compress. rewrite async_await.
    rewrite (_transform_after_pipe "compress" data
               {| t_output := Some (default "blob" (output o));
                  t_format := Some (default DEFAULT_FORMAT (format o));
                  t_type := None; t_signal := signal o |}
               w w1 w2 src (next_id w1) Hts Hsup Hpipe).
    cbn [t_output t_type]. rewrite Hout. cbn [default from_option id].
    apply fromStream_unsupported, Hsel.
  - destruct (pipeThrough_takes_source src
                (DecompressionStream (default DEFAULT_FORMAT (format o))) (signal o)
                w1 r Hr Hl Hfree) as (w2 & r' & Hpipe & Hr' & Hstate).
    exists w2, r'. split; [| split; assumption].
    unfold decompress.
    rewrite (_transform_after_pipe "decompress" data
               {| t_output := output o;
                  t_format := Some (default DEFAULT_FORMAT (format o));
                  t_type := None; t_signal := signal o |}
               w w1 w2 src (next_id w1) Hts Hsup Hpipe).
    cbn [t_output t_type]. rewrite Hout. cbn [default from_option id].
    apply fromStream_unsupported, Hsel.
Qed.

Lemma new_Response_unlocked (s : stream_id) (ty : option string) (w : world) (r : rstream) :
  streams w !! s = Some r -> locked r = false -> spent (delivers r) = false ->
  new_Response s ty w = (Return {| body := s; content_type := ty |}, w).
Proof.
  intros Hr Hl Hsp. unfold new_Response. rewrite Hr, Hl, Hsp. reflexivity.
Qed.

Lemma closes_not_spent (r : rstream) (cs : list chunk) :
  delivers r = Closes cs -> spent (delivers r) = false.
Proof. intros ->. reflexivity. Qed.

Lemma errors_not_spent (r : rstream) (e : thrown) :
  delivers r = Errors e -> spent (delivers r) = false.
Proof. intros ->. reflexivity. Qed.

Lemma Response_bytes_closes (s : stream_id) (ty : option string) (w : world)
      (r : rstream) (l : list bytes) :
  streams w !! s = Some r -> locked r = false -> delivers r = Closes (List.map CBytes l) ->
  exists w', Response_bytes {| body := s; content_type := ty |} w = (Fulfilled (concat l), w').
Proof.
  intros Hr Hl Hd. unfold Response_bytes. rewrite async_bind.
  unfold await, read_all. cbn [body]. rewrite Hr, Hl, Hd. cbv zeta.
  rewrite buffer_sources_bytes. eexists. reflexivity.
Qed.

Lemma fromStream_blob (s : stream_id) (ty : string) (w : world) (r : rstream) (l : list bytes) :
  streams w !! s = Some r -> locked r = false -> delivers r = Closes (List.map CBytes l) ->
  exists w', fromStream (VReadableStream s) (Some "blob") (Some ty) w
             = (Fulfilled (VBlob ty (concat l)), w').
Proof.
  intros Hr Hl Hd. pose proof (closes_not_spent r _ Hd) as Hsp.
  destruct (Response_bytes_closes s (Some ty) w r l Hr Hl Hd) as (w' & Hb).
  exists w'. unfold fromStream. cbn [default from_option id String.eqb Ascii.eqb Bool.eqb].
  rewrite async_bind, (new_Response_unlocked s _ w r Hr Hl Hsp), async_bind.
  unfold await, Response_blob, then_. rewrite Hb. reflexivity.
Qed.

Lemma fromStream_blob_errors (s : stream_id) (ty : string) (w : world) (r : rstream)
      (e : thrown) :
  streams w !! s = Some r -> locked r = false -> delivers r = Errors e ->
  exists w', fromStream (VReadableStream s) (Some "blob") (Some ty) w = (Rejected e, w').
Proof.
  intros Hr Hl Hd. pose proof (errors_not_spent r _ Hd) as Hsp.
  unfold fromStream. cbn [default from_option id String.eqb Ascii.eqb Bool.eqb].
  rewrite async_bind, (new_Response_unlocked s _ w r Hr Hl Hsp), async_bind.
  unfold await, Response_blob, then_, Response_bytes. rewrite async_bind.
  unfold await, read_all. cbn [body]. rewrite Hr, Hl, Hd.
  eexists. reflexivity.
Qed.

Lemma fromStream_text (s : stream_id) (ty : string) (w : world) (r : rstream) (l : list bytes) :
  streams w !! s = Some r -> locked r = false -> delivers r = Closes (List.map CBytes l) ->
  exists w', fromStream (VReadableStream s) (Some "text") (Some ty) w
             = (Fulfilled (VString (Utf8.decode (concat l))), w').
Proof.
  intros Hr Hl Hd. pose proof (closes_not_spent r _ Hd) as Hsp.
  destruct (Response_bytes_closes s (Some ty) w r l Hr Hl Hd) as (w' & Hb).
  exists w'. unfold fromStream. cbn [default from_option id String.eqb Ascii.eqb Bool.eqb].
  rewrite async_bind, (new_Response_unlocked s _ w r Hr Hl Hsp), async_bind.
  unfold await, Response_text, then_. rewrite Hb. reflexivity.
Qed.

(** [_transform] up to [fromStream], for a source of binary chunks and no
    abort: the stream handed to [fromStream] delivers the codec's output. *)
Lemma _transform_delivers (method : string) (data : jsval) (o : transform_options)
      (w w1 : world) (src : stream_id) (r : rstream) :
  toStream data w = (Return src, w1) ->
  streams w1 !! src = Some r -> locked r = false ->
  aborted_reason (t_signal o) = None ->
  supported_format (default DEFAULT_FORMAT (t_format o)) = true ->
  let f := default DEFAULT_FORMAT (t_format o) in
  let t := if method =? "compress" then CompressionStream f else DecompressionStream f in
  exists w2,
    streams w2 !! next_id w1 =
      Some {| delivers := transform_outcome t (delivers r); locked := false;
              upstream := src :: upstream r |}
    /\ _transform method data o w =
       fromStream (VReadableStream (next_id w1)) (Some (default "blob" (t_output o)))
         (Some (default "application/octet-stream" (t_type o))) w2.
Proof.
  intros Hts Hr Hl Hsg Hsup f t.
  destruct (pipeThrough_delivers src t (t_signal o) w1 r Hr Hl Hsg) as (w2 & Hpipe & Hs).
  exists w2. split; [exact Hs |].
  unfold _transform. rewrite async_bind, Hts, async_bind.
  unfold new_CompressionStream, new_DecompressionStream. subst f t. rewrite Hsup.
  destruct (method =? "compress"); unfold ret;
    rewrite async_bind, Hpipe, async_await; reflexivity.
Qed.

Lemma toStream_container (data : jsval) (b : bytes) (w : world) :
  blob_stream_faithful P -> container_bytes data = Some b ->
  exists cs w1 r,
    toStream data w = (Return (next_id w), w1)
    /\ streams w1 !! next_id w = Some r /\ locked r = false
    /\ delivers r = Closes (List.map CBytes cs) /\ concat cs = b.
Proof.
  intros Hblob Hb.
  destruct data; try discriminate Hb; injection Hb as ->.
  - exists [b]. do 2 eexists. split; [reflexivity |].
    split; [simpl; apply lookup_insert_eq |].
    repeat split. simpl. apply app_nil_r.
  - exists [b]. do 2 eexists. split; [reflexivity |].
    split; [simpl; apply lookup_insert_eq |].
    repeat split. simpl. apply app_nil_r.
  - exists (blob_chunks b). do 2 eexists. split; [reflexivity |].
    split; [simpl; apply lookup_insert_eq |].
    repeat split. apply Hblob.
Qed.

Lemma supported_format_In (f : string) : In f supported_formats -> supported_format f = true.
Proof.
  intros Hf. unfold supported_format. apply existsb_exists.
  exists f. split; [exact Hf | apply String.eqb_refl].
Qed.

(** [compress], with the default output, of a source of binary chunks. *)
Lemma compress_blob (data : jsval) (f : string) (w w1 : world) (src : stream_id)
      (r : rstream) (cs : list bytes) :
  supported_format f = true ->
  toStream data w = (Return src, w1) ->
  streams w1 !! src = Some r -> locked r = false ->
  delivers r = Closes (List.map CBytes cs) ->
  exists w2, compress data (only_format f) w
             = (Fulfilled (VBlob "application/octet-stream" (concat (deflate_chunks f cs))), w2).
Proof.
  intros Hsup Hts Hr Hl Hd. unfold compress. rewrite async_await.
  edestruct (_transform_delivers "compress" data) as (w2 & Hs & ->);
    [exact Hts | exact Hr | exact Hl | reflexivity | exact Hsup |].
  cbn [t_output t_type t_format output format only_format default from_option id] in *.
  rewrite Hd in Hs. cbn [transform_outcome String.eqb Ascii.eqb Bool.eqb transform_chunks] in Hs.
  rewrite buffer_sources_bytes in Hs.
  eapply fromStream_blob; [exact Hs | reflexivity | reflexivity].
Qed.

(** [decompress] of a source of binary chunks that the codec accepts. *)
Lemma decompress_delivers (data : jsval) (f : string) (sel : option string) (w w1 : world)
      (src : stream_id) (r : rstream) (cs out : list bytes) :
  supported_format f = true ->
  toStream data w = (Return src, w1) ->
  streams w1 !! src = Some r -> locked r = false ->
  delivers r = Closes (List.map CBytes cs) ->
  inflate_chunks f cs = Some out ->
  exists w2 r2,
    streams w2 !! next_id w1 = Some r2 /\ locked r2 = false
    /\ delivers r2 = Closes (List.map CBytes out)
    /\ decompress data {| output := sel; format := Some f; signal := None |} w =
       fromStream (VReadableStream (next_id w1)) (Some (default "blob" sel))
         (Some "application/octet-stream") w2.
Proof.
  intros Hsup Hts Hr Hl Hd Hinf. unfold decompress.
  edestruct (_transform_delivers "decompress" data) as (w2 & Hs & ->);
    [exact Hts | exact Hr | exact Hl | reflexivity | exact Hsup |].
  cbn [t_output t_type t_format output format default from_option id] in *.
  rewrite Hd in Hs. cbn [transform_outcome String.eqb Ascii.eqb Bool.eqb transform_chunks] in Hs.
  rewrite buffer_sources_bytes, Hinf in Hs.
  do 2 eexists. split; [exact Hs |]. repeat split.
Qed.

(** ** Round trip *)

(** C1: for each of the formats gzip, deflate and deflate-raw and every
    byte sequence [b], empty or not, held by an ArrayBuffer, a Uint8Array
    or a Blob, [compress] fulfils with a Blob, and [decompress] of that
    Blob with the same format fulfils with a Blob of exactly [b]; on any
    platform whose decompression stream inverts its compression stream. *)
Theorem compress_decompress_roundtrip (f : string) (b : bytes) (data : jsval) (w : world) :
  codec_inverts P -> blob_stream_faithful P ->
  In f supported_formats -> container_bytes data = Some b ->
  exists c w1 w2,
    compress data (only_format f) w = (Fulfilled (VBlob "application/octet-stream" c), w1)
    /\ decompress (VBlob "application/octet-stream" c) (only_format f) w1
       = (Fulfilled (VBlob "application/octet-stream" b), w2).
Proof.
  intros Hcodec Hblob Hf Hb.
  apply supported_format_In in Hf.
  destruct (toStream_container data b w Hblob Hb) as (cs & wa & ra & Hts & Hra & Hla & Hda & Hcs).
  destruct (compress_blob data f w wa _ ra cs Hf Hts Hra Hla Hda) as (w1 & Hcompress).
  set (c := concat (deflate_chunks f cs)) in *.
  destruct (toStream_container (VBlob "application/octet-stream" c) c w1 Hblob eq_refl)
    as (ds & wb & rb & Hts' & Hrb & Hlb & Hdb & Hds).
  destruct (Hcodec f cs ds Hf Hds) as (out & Hinf & Hout).
  destruct (decompress_delivers _ f None w1 wb _ rb ds out Hf Hts' Hrb Hlb Hdb Hinf)
    as (wc & rc & Hrc & Hlc & Hdc & Hdecompress).
  destruct (fromStream_blob _ "application/octet-stream" wc rc out Hrc Hlc Hdc) as (w2 & Hfrom).
  exists c, w1, w2. split; [exact Hcompress |].
  unfold only_format. rewrite Hdecompress. cbn [default from_option id].
  rewrite Hfrom, Hout, Hcs. reflexivity.
Qed.

(** ** Text input *)

Lemma text_encoder_single (s : jsstring) :
  exists cs, text_encoder None [CText s] = List.map CBytes cs /\ concat cs = Utf8.encode s.
Proof.
  unfold Utf8.encode. cbn [text_encoder chunk_to_string].
  destruct (Utf8.encode_units None s) as [[| b out] [hi |]].
  - exists [Utf8.flush (Some hi)]. split; [reflexivity | apply app_nil_r].
  - exists []. split; reflexivity.
  - exists [b :: out; Utf8.flush (Some hi)]. split; [reflexivity |].
    cbn [concat]. rewrite app_nil_r. reflexivity.
  - exists [b :: out]. split; reflexivity.
Qed.

Lemma toStream_string (s : jsstring) (w : world) :
  exists src w1 r,
    toStream (VString s) w = (Return src, w1)
    /\ streams w1 !! src = Some r /\ locked r = false
    /\ delivers r = Closes (text_encoder None [CText s]).
Proof.
  cbn [toStream]. unfold bind, new_ReadableStream, new_stream.
  edestruct (pipeThrough_delivers (next_id w) TextEncoderStream None) as (w1 & -> & Hs);
    [simpl; apply lookup_insert_eq | reflexivity | reflexivity |].
  do 3 eexists. split; [reflexivity |]. split; [exact Hs |]. split; reflexivity.
Qed.

(** A string compressed and then decompressed as text comes back as the
    UTF-8 decoding of its UTF-8 encoding. *)
Lemma string_text_roundtrip (s : jsstring) (f : string) (w : world) :
  codec_inverts P -> blob_stream_faithful P -> supported_format f = true ->
  exists c w1 w2,
    compress (VString s) (only_format f) w
    = (Fulfilled (VBlob "application/octet-stream" c), w1)
    /\ decompress (VBlob "application/octet-stream" c)
         {| output := Some "text"; format := Some f; signal := None |} w1
       = (Fulfilled (VString (Utf8.decode (Utf8.encode s))), w2).
Proof.
  intros Hcodec Hblob Hf.
  destruct (toStream_string s w) as (src & wa & ra & Hts & Hra & Hla & Hda).
  destruct (text_encoder_single s) as (cs & Hcs & Hbytes).
  rewrite Hcs in Hda.
  destruct (compress_blob (VString s) f w wa src ra cs Hf Hts Hra Hla Hda)
    as (w1 & Hcompress).
  set (c := concat (deflate_chunks f cs)) in *.
  destruct (toStream_container (VBlob "application/octet-stream" c) c w1 Hblob eq_refl)
    as (ds & wb & rb & Hts' & Hrb & Hlb & Hdb & Hds).
  destruct (Hcodec f cs ds Hf Hds) as (out & Hinf & Hout).
  destruct (decompress_delivers _ f (Some "text") w1 wb _ rb ds out
              Hf Hts' Hrb Hlb Hdb Hinf)
    as (wc & rc & Hrc & Hlc & Hdc & Hdecompress).
  destruct (fromStream_text _ "application/octet-stream" wc rc out Hrc Hlc Hdc)
    as (w2 & Hfrom).
  exists c, w1, w2. split; [exact Hcompress |].
  rewrite Hdecompress. cbn [default from_option id].
  rewrite Hfrom, Hout, Hbytes. reflexivity.
Qed.

(** C6: a string input reaches the codec as its UTF-8 encoding: the stream
    [toStream] makes of it delivers exactly [Utf8.encode s].  And
    compressing "Hello, World!" with format gzip, then decompressing the
    result with format gzip and output 'text', gives back
    "Hello, World!", through [compress] and [decompress] as through
    [gzip] and [gunzip]; on any platform whose decompression stream
    inverts its compression stream. *)
Theorem string_input_is_utf8 (s : jsstring) (w : world) :
  codec_inverts P -> blob_stream_faithful P ->
  (exists src w1, toStream (VString s) w = (Return src, w1)
                  /\ stream_bytes w1 src = Some (Utf8.encode s))
  /\ (exists c w1 w2,
        compress (VString hello) (only_format "gzip") w
        = (Fulfilled (VBlob "application/octet-stream" c), w1)
        /\ decompress (VBlob "application/octet-stream" c)
             {| output := Some "text"; format := Some "gzip"; signal := None |} w1
           = (Fulfilled (VString hello), w2)
        /\ gzip (VString hello) no_options w
           = (Fulfilled (VBlob "application/octet-stream" c), w1)
        /\ gunzip (VBlob "application/octet-stream" c) (with_output "text") w1
           = (Fulfilled (VString hello), w2)).
Proof.
  intros Hcodec Hblob. split.
  - destruct (toStream_string s w) as (src & w1 & r & Hts & Hr & _ & Hd).
    destruct (text_encoder_single s) as (cs & Hcs & Hbytes).
    exists src, w1. split; [exact Hts |].
    unfold stream_bytes. rewrite Hr. destruct r as [d l u]. cbn [delivers] in Hd. subst d.
    rewrite Hcs, buffer_sources_bytes. simpl. rewrite Hbytes. reflexivity.
  - destruct (string_text_roundtrip hello "gzip" w Hcodec Hblob eq_refl)
      as (c & w1 & w2 & Hcompress & Htext).
    change (Utf8.decode (Utf8.encode hello)) with hello in Htext.
    exists c, w1, w2. repeat split.
    + exact Hcompress.
    + exact Htext.
    + exact Hcompress.
    + exact Htext.
Qed.

(** *** ASCII text *)

Lemma to_N_byte_of_N (u : N) : (u <= 255)%N -> Byte.to_N (byte_of_N u) = u.
Proof.
  intros Hu. unfold byte_of_N.
  destruct (Byte.of_N u) as [b |] eqn:E.
  - apply Byte.to_of_N. exact E.
  - apply Byte.of_N_None_iff in E. lia.
Qed.

Lemma encode_units_ascii (s : jsstring) :
  is_ascii s -> Utf8.encode_units None s = (List.map byte_of_N s, None).
Proof.
  induction 1 as [| u s Hu _ IH]; [reflexivity |].
  cbn [Utf8.encode_units Utf8.convert_unit List.map]. unfold Utf8.convert_fresh.
  assert (Hlead : Utf8.is_lead u = false).
  { unfold Utf8.is_lead. apply andb_false_intro1, N.leb_gt. lia. }
  assert (Htrail : Utf8.is_trail u = false).
  { unfold Utf8.is_trail. apply andb_false_intro1, N.leb_gt. lia. }
  rewrite Hlead, Htrail, IH. cbn [flat_map]. unfold Utf8.encode_scalar.
  apply N.ltb_lt in Hu. rewrite Hu. reflexivity.
Qed.

Lemma decode_from_ascii (s : jsstring) :
  is_ascii s -> Utf8.decode_from Utf8.init (List.map byte_of_N s) = s.
Proof.
  induction 1 as [| u s Hu _ IH]; [reflexivity |].
  cbn [List.map Utf8.decode_from].
  rewrite to_N_byte_of_N by lia.
  unfold Utf8.step, Utf8.start. cbn [Utf8.bytes_needed Utf8.init N.eqb].
  assert (Hle : (u <=? 0x7F)%N = true) by (apply N.leb_le; lia).
  rewrite Hle, IH. reflexivity.
Qed.

Lemma strip_bom_ascii (s : jsstring) :
  is_ascii s -> Utf8.strip_bom (List.map byte_of_N s) = List.map byte_of_N s.
Proof.
  destruct 1 as [| u s Hu _]; [reflexivity |].
  cbn [List.map].
  pose proof (to_N_byte_of_N u ltac:(lia)) as Hb.
  destruct (byte_of_N u); try reflexivity.
  simpl in Hb. lia.
Qed.

Lemma to_utf16_ascii (s : jsstring) : is_ascii s -> flat_map Utf8.to_utf16 s = s.
Proof.
  induction 1 as [| u s Hu _ IH]; [reflexivity |].
  change (flat_map Utf8.to_utf16 (u :: s))
    with (Utf8.to_utf16 u ++ flat_map Utf8.to_utf16 s).
  rewrite IH. unfold Utf8.to_utf16.
  assert (Hlt : (u <? 0x10000)%N = true) by (apply N.ltb_lt; lia).
  rewrite Hlt. reflexivity.
Qed.

Lemma utf8_ascii_roundtrip (s : jsstring) : is_ascii s -> Utf8.decode (Utf8.encode s) = s.
Proof.
  intros Hs. unfold Utf8.encode, Utf8.decode.
  rewrite (encode_units_ascii s Hs). cbn [Utf8.flush]. rewrite app_nil_r.
  rewrite (strip_bom_ascii s Hs), (decode_from_ascii s Hs).
  apply to_utf16_ascii, Hs.
Qed.

(** Every ASCII string survives compression and decompression as text, in
    each format. *)
Lemma ascii_text_roundtrip (s : jsstring) (f : string) (w : world) :
  codec_inverts P -> blob_stream_faithful P -> In f supported_formats -> is_ascii s ->
  exists c w1 w2,
    compress (VString s) (only_format f) w
    = (Fulfilled (VBlob "application/octet-stream" c), w1)
    /\ decompress (VBlob "application/octet-stream" c)
         {| output := Some "text"; format := Some f; signal := None |} w1
       = (Fulfilled (VString s), w2).
Proof.
  intros Hcodec Hblob Hf Hs.
  destruct (string_text_roundtrip s f w Hcodec Hblob (supported_format_In f Hf))
    as (c & w1 & w2 & Hcompress & Htext).
  rewrite (utf8_ascii_roundtrip s Hs) in Htext.
  exists c, w1, w2. split; assumption.
Qed.

(** ** Output selectors *)

(** C8: for a valid input (one [toStream] accepts, whose stream is not
    locked and delivers binary chunks [cs]), a supported format and no
    abort, [compress] and [decompress] called with no output selector
    return the default representation, a single Blob of type
    application/octet-stream that holds the whole result: the codec's
    compressed chunks for [cs], concatenated, for [compress]; the codec's
    decompressed chunks for [decompress] (which rejects when [cs] is not
    compressed data).  [decompress], whose own options give [output] no
    default, gets it from [_transform]: for both functions, leaving the
    selector out is the same as passing 'blob'. *)
Theorem default_output_is_blob (data : jsval) (fmt : option string) (sg : option AbortSignal)
        (w w1 : world) (src : stream_id) (r : rstream) (cs : list bytes) :
  let f := default DEFAULT_FORMAT fmt in
  let omitted := {| output := None; format := fmt; signal := sg |} in
  let blob := {| output := Some "blob"; format := fmt; signal := sg |} in
  toStream data w = (Return src, w1) ->
  streams w1 !! src = Some r -> locked r = false ->
  delivers r = Closes (List.map CBytes cs) ->
  supported_format f = true -> aborted_reason sg = None ->
  (exists w', compress data omitted w
              = (Fulfilled (VBlob "application/octet-stream" (concat (deflate_chunks f cs))),
                 w'))
  /\ (forall out, inflate_chunks f cs = Some out ->
      exists w', decompress data omitted w
                 = (Fulfilled (VBlob "application/octet-stream" (concat out)), w'))
  /\ (inflate_chunks f cs = None -> exists e w', decompress data omitted w = (Rejected e, w'))
  /\ compress data omitted w = compress data blob w
  /\ decompress data omitted w = decompress data blob w.
Proof.
  intros f omitted blob Hts Hr Hl Hd Hsup Hsg.
  assert (Hdec : exists w2,
             streams w2 !! next_id w1
             = Some {| delivers := match inflate_chunks f cs with
                                   | Some out => Closes (List.map CBytes out)
                                   | None => Errors (TypeError "The compressed data was not valid")
                                   end;
                       locked := false; upstream := src :: upstream r |}
             /\ decompress data omitted w
                = fromStream (VReadableStream (next_id w1)) (Some "blob")
                    (Some "application/octet-stream") w2).
  { unfold decompress.
    edestruct (_transform_delivers "decompress" data) as (w2 & Hs & ->);
      [exact Hts | exact Hr | exact Hl | exact Hsg | exact Hsup |].
    cbn [t_output t_type t_format output format omitted default from_option id] in *.
    rewrite Hd in Hs.
    cbn [transform_outcome String.eqb Ascii.eqb Bool.eqb transform_chunks] in Hs.
    rewrite buffer_sources_bytes in Hs. fold f in Hs.
    exists w2. split; [exact Hs | reflexivity]. }
  destruct Hdec as (w2 & Hs & Hdec).
  split; [| split; [| split; [| split; reflexivity]]].
  - unfold compress. rewrite async_await.
    edestruct (_transform_delivers "compress" data) as (wc & Hc & ->);
      [exact Hts | exact Hr | exact Hl | exact Hsg | exact Hsup |].
    cbn [t_output t_type t_format output format omitted default from_option id] in *.
    rewrite Hd in Hc.
    cbn [transform_outcome String.eqb Ascii.eqb Bool.eqb transform_chunks] in Hc.
    rewrite buffer_sources_bytes in Hc.
    eapply fromStream_blob; [exact Hc | reflexivity | reflexivity].
  - intros out Hout. rewrite Hout in Hs. rewrite Hdec.
    eapply fromStream_blob; [exact Hs | reflexivity | reflexivity].
  - intros Hnone. rewrite Hnone in Hs. rewrite Hdec. eexists.
    eapply fromStream_blob_errors; [exact Hs | reflexivity | reflexivity].
Qed.

Lemma fromStream_base64 (s : stream_id) (sel : string) (ty : option string) (w : world) :
  usable w s -> sel = "base64" \/ sel = "base64url" ->
  fromStream (VReadableStream s) (Some sel) ty w = (Rejected then_error, w).
Proof.
  intros (r & Hr & Hl & Hsp) [-> | ->];
    unfold fromStream; cbn [default from_option id String.eqb Ascii.eqb Bool.eqb];
    rewrite async_bind, (new_Response_unlocked s None w r Hr Hl Hsp); reflexivity.
Qed.

(** With the selectors 'base64' and 'base64url' the code calls [then] on
    the [Response] itself: for any input [toStream] accepts and a supported
    format, [compress] and [decompress] reject with a TypeError. *)
Lemma base64_output_rejects (data : jsval) (o : options) (sel : string)
        (w w1 : world) (src : stream_id) :
  output o = Some sel -> sel = "base64" \/ sel = "base64url" ->
  supported_format (default DEFAULT_FORMAT (format o)) = true ->
  toStream data w = (Return src, w1) -> unlocked w1 src ->
  (exists w', compress data o w = (Rejected then_error, w'))
  /\ (exists w', decompress data o w = (Rejected then_error, w')).
Proof.
  intros Hout Hsel Hsup Hts Hun. split.
  - unfold compress. rewrite async_await.
    edestruct (_transform_pipes "compress" data) as (w2 & Hun2 & ->);
      [exact Hts | exact Hun | exact Hsup |].
    cbn [t_output t_type]. rewrite Hout. cbn [default from_option id].
    exists w2. apply fromStream_base64; assumption.
  - unfold decompress.
    edestruct (_transform_pipes "decompress" data) as (w2 & Hun2 & ->);
      [exact Hts | exact Hun | exact Hsup |].
    cbn [t_output t_type]. rewrite Hout. cbn [default from_option id].
    exists w2. apply fromStream_base64; assumption.
Qed.

(** C2, at the input [new Uint8Array([1, 2, 3])]: with the selectors
    'base64' and 'base64url', [compress] and [decompress] reject with a
    TypeError; they do not fulfil with the base64 encoding of the result
    bytes. *)
Theorem base64_selector_fails :
  let input := VUint8Array [x01; x02; x03] in
  let compressed := concat (deflate_chunks "gzip" [[x01; x02; x03]]) in
  (fst (compress input (with_output "base64") empty_world) = Rejected then_error
   /\ fst (compress input (with_output "base64") empty_world)
      <> Fulfilled (VString (of_ascii (toBase64 "base64" compressed))))
  /\ (fst (compress input (with_output "base64url") empty_world) = Rejected then_error
      /\ fst (compress input (with_output "base64url") empty_world)
         <> Fulfilled (VString (of_ascii (toBase64 "base64url" compressed))))
  /\ fst (decompress input (with_output "base64") empty_world) = Rejected then_error
  /\ fst (decompress input (with_output "base64url") empty_world) = Rejected then_error.
Proof.
  cbv zeta.
  assert (H64 : fst (compress (VUint8Array [x01; x02; x03]) (with_output "base64") empty_world)
                = Rejected then_error) by (vm_compute; reflexivity).
  assert (H64u : fst (compress (VUint8Array [x01; x02; x03]) (with_output "base64url")
                        empty_world)
                 = Rejected then_error) by (vm_compute; reflexivity).
  split; [split; [exact H64 | rewrite H64; discriminate] |].
  split; [split; [exact H64u | rewrite H64u; discriminate] |].
  split.
  - edestruct (base64_output_rejects (VUint8Array [x01; x02; x03]) (with_output "base64")
                 "base64" empty_world) as [_ [w' Hd]];
      [ reflexivity | left; reflexivity | reflexivity | reflexivity
      | eexists; split; [simpl; apply lookup_insert_eq | reflexivity]
      | rewrite Hd; reflexivity ].
  - edestruct (base64_output_rejects (VUint8Array [x01; x02; x03]) (with_output "base64url")
                 "base64url" empty_world) as [_ [w' Hd]];
      [ reflexivity | right; reflexivity | reflexivity | reflexivity
      | eexists; split; [simpl; apply lookup_insert_eq | reflexivity]
      | rewrite Hd; reflexivity ].
Qed.

End Properties.

(** ** The framing platform satisfies the platform's contract *)

Lemma strip_prefix_app (p l : bytes) : strip_prefix p (p ++ l) = Some l.
Proof.
  induction p as [| b p IH]; simpl; [reflexivity |].
  rewrite (Byte.byte_dec_lb (eq_refl b)). exact IH.
Qed.

Lemma framing_inverts : codec_inverts framing.
Proof.
  intros f cs ds _ Hds. cbn in *. rewrite app_nil_r in Hds.
  rewrite Hds, strip_prefix_app. exists [concat cs]. split; [reflexivity |].
  simpl. apply app_nil_r.
Qed.

Lemma framing_blob_stream_faithful : blob_stream_faithful framing.
Proof. intros b. simpl. apply app_nil_r. Qed.

(** ** The library on the framing platform *)

Example hex_selector_on_framing :
  fst (@compress framing (VUint8Array [x01; x02; x03]) (with_output "hex") empty_world)
  = Fulfilled (VString (of_ascii "1f8b010203")).
Proof. vm_compute. reflexivity. Qed.

Example bytes_selector_on_framing :
  fst (@compress framing (VUint8Array [x01; x02; x03]) (with_output "bytes") empty_world)
  = Fulfilled (VUint8Array [x1f; x8b; x01; x02; x03]).
Proof. vm_compute. reflexivity. Qed.

Example base64_of_framed_bytes : toBase64 "base64" [x1f; x8b; x01; x02; x03] = "H4sBAgM=".
Proof. reflexivity. Qed.

Example aborted_signal_rejects_gzip :
  fst (@gzip framing (VString hello)
         {| output := None; format := None;
            signal := Some {| aborted := true; reason := VString (of_ascii "stop") |} |}
         empty_world)
  = Rejected (Thrown (VString (of_ascii "stop"))).
Proof. vm_compute. reflexivity. Qed.

Example utf8_encode_mixed :
  Utf8.encode [0x20AC; 0xD83D; 0xDE00; 0xD800; 0xE9]%N
  = [xe2; x82; xac; xf0; x9f; x98; x80; xef; xbf; xbd; xc3; xa9].
Proof. vm_compute. reflexivity. Qed.

Example utf8_decode_mixed :
  Utf8.decode [xef; xbb; xbf; xe2; x82; xac; xf0; x9f; x98; x80; xc3; xa9; xc3]
  = [0x20AC; 0xD83D; 0xDE00; 0xE9; 0xFFFD]%N.
Proof. vm_compute. reflexivity. Qed.

(** ** Instances of the conditional properties *)

Lemma compress_decompress_roundtrip_witness :
  exists c w1 w2,
    @compress framing (VUint8Array [x01; x02; x03]) (only_format "deflate") empty_world
    = (Fulfilled (VBlob "application/octet-stream" c), w1)
    /\ @decompress framing (VBlob "application/octet-stream" c) (only_format "deflate") w1
       = (Fulfilled (VBlob "application/octet-stream" [x01; x02; x03]), w2).
Proof.
  apply (@compress_decompress_roundtrip framing "deflate" [x01; x02; x03]
           (VUint8Array [x01; x02; x03]) empty_world
           framing_inverts framing_blob_stream_faithful).
  - simpl. tauto.
  - reflexivity.
Defined.

Lemma string_input_is_utf8_witness :
  (exists src w1, @toStream framing (VString [0xE9; 0x20AC]%N) empty_world = (Return src, w1)
                  /\ stream_bytes w1 src = Some (Utf8.encode [0xE9; 0x20AC]%N))
  /\ (exists c w1 w2,
        @compress framing (VString hello) (only_format "gzip") empty_world
        = (Fulfilled (VBlob "application/octet-stream" c), w1)
        /\ @decompress framing (VBlob "application/octet-stream" c)
             {| output := Some "text"; format := Some "gzip"; signal := None |} w1
           = (Fulfilled (VString hello), w2)
        /\ @gzip framing (VString hello) no_options empty_world
           = (Fulfilled (VBlob "application/octet-stream" c), w1)
        /\ @gunzip framing (VBlob "application/octet-stream" c) (with_output "text") w1
           = (Fulfilled (VString hello), w2)).
Proof.
  exact (@string_input_is_utf8 framing [0xE9; 0x20AC]%N empty_world
           framing_inverts framing_blob_stream_faithful).
Defined.

Lemma invalid_input_rejected_witness :
  (typeof (VNumber 9) <> "string" /\ recognized (VNumber 9) = false)
  /\ @compress framing (VNumber 9) no_options empty_world
     = (Rejected (TypeError "Invalid input type: number."), empty_world)
  /\ @decompress framing (VObject "Array") no_options empty_world
     = (Rejected (TypeError "Unsupported input type."), empty_world).
Proof.
  split; [split; [discriminate | reflexivity] |]. split.
  - apply (@invalid_input_rejected framing (VNumber 9) no_options empty_world);
      [discriminate | reflexivity].
  - apply (@invalid_input_rejected framing (VObject "Array") no_options empty_world);
      [discriminate | reflexivity].
Defined.

Lemma unsupported_output_rejected_witness :
  (exists w' r', @compress framing (VUint8Array [x01]) (with_output "json") empty_world
                 = (Rejected (unsupported_output "json"), w')
                 /\ streams w' !! 0 = Some r'
                 /\ (locked r' = true \/ delivers r' = Spent))
  /\ (exists w' r', @decompress framing (VUint8Array [x01]) (with_output "json") empty_world
                    = (Rejected (unsupported_output "json"), w')
                    /\ streams w' !! 0 = Some r'
                    /\ (locked r' = true \/ delivers r' = Spent)).
Proof.
  eapply (@unsupported_output_rejected framing (VUint8Array [x01]) (with_output "json") "json"
            empty_world).
  - reflexivity.
  - simpl. intros H. repeat (destruct H as [H | H]; [discriminate H |]). exact H.
  - reflexivity.
  - reflexivity.
  - eexists. split; [vm_compute; reflexivity | reflexivity].
  - vm_compute. reflexivity.
Defined.

Lemma default_output_is_blob_witness :
  (exists w', @compress framing (VUint8Array [x1f; x8b; x01]) no_options empty_world
              = (Fulfilled (VBlob "application/octet-stream" [x1f; x8b; x1f; x8b; x01]), w'))
  /\ (exists w', @decompress framing (VUint8Array [x1f; x8b; x01]) no_options empty_world
                 = (Fulfilled (VBlob "application/octet-stream" [x01]), w')).
Proof.
  destruct (@default_output_is_blob framing (VUint8Array [x1f; x8b; x01]) None None empty_world
              (snd (@toStream framing (VUint8Array [x1f; x8b; x01]) empty_world)) 0
              {| delivers := Closes [CBytes [x1f; x8b; x01]]; locked := false; upstream := [] |}
              [[x1f; x8b; x01]] eq_refl eq_refl eq_refl eq_refl eq_refl eq_refl)
    as (Hc & Hd & _).
  split; [exact Hc | exact (Hd [[x01]] eq_refl)].
Defined.

(** ** Where the unsupported-output error is not the one raised *)

(** C3 as stated fails for an input [toStream] refuses: the number 9 with the
    unknown selector 'json' is rejected with the invalid-input error, not
    with the unsupported-output error. *)
Lemma unsupported_output_after_input_check :
  ~ In "json" supported_outputs
  /\ @compress framing (VNumber 9) (with_output "json") empty_world
     = (Rejected (TypeError "Invalid input type: number."), empty_world)
  /\ TypeError "Invalid input type: number." <> unsupported_output "json".
Proof.
  split; [| split].
  - simpl. intros H. repeat (destruct H as [H | H]; [discriminate H |]). exact H.
  - reflexivity.
  - discriminate.
Qed.

(** * Further properties of the library *)

Section Further.

Context {P : Platform}.

(** ** Reading a stream *)

Lemma read_all_spec (s : stream_id) (w : world) (r : rstream) :
  streams w !! s = Some r -> locked r = false ->
  read_all s w =
  (match delivers r with
   | Closes cs => Fulfilled cs
   | Errors e => Rejected e
   | Spent => Fulfilled []
   end, after_read s r w).
Proof.
  intros Hr Hl. unfold read_all, after_read. rewrite Hr, Hl. cbv zeta.
  destruct (delivers r); reflexivity.
Qed.

Lemma Response_bytes_spec (s : stream_id) (ty : option string) (w : world)
      (r : rstream) (l : list bytes) :
  streams w !! s = Some r -> locked r = false -> delivers r = Closes (List.map CBytes l) ->
  Response_bytes {| body := s; content_type := ty |} w = (Fulfilled (concat l), after_read s r w).
Proof.
  intros Hr Hl Hd. unfold Response_bytes. rewrite async_bind.
  unfold await. cbn [body]. rewrite (read_all_spec s w r Hr Hl), Hd.
  rewrite buffer_sources_bytes. reflexivity.
Qed.

Lemma Response_bytes_errors (s : stream_id) (ty : option string) (w : world)
      (r : rstream) (e : thrown) :
  streams w !! s = Some r -> locked r = false -> delivers r = Errors e ->
  Response_bytes {| body := s; content_type := ty |} w = (Rejected e, after_read s r w).
Proof.
  intros Hr Hl Hd. unfold Response_bytes. rewrite async_bind.
  unfold await. cbn [body]. rewrite (read_all_spec s w r Hr Hl), Hd. reflexivity.
Qed.

Lemma new_Response_locked (s : stream_id) (ty : option string) (w : world) (r : rstream) :
  streams w !! s = Some r -> locked r = true ->
  new_Response s ty w = (Throw body_error, w).
Proof.
  intros Hr Hl. unfold new_Response. rewrite Hr, Hl. reflexivity.
Qed.

Ltac select_case :=
  unfold fromStream; cbn [default from_option id String.eqb Ascii.eqb Bool.eqb].

Lemma not_supported_output (sel : string) :
  ~ In sel supported_outputs <->
  (sel <> "stream" /\ sel <> "response" /\ sel <> "blob" /\ sel <> "buffer" /\ sel <> "bytes"
   /\ sel <> "hex" /\ sel <> "base64" /\ sel <> "base64url" /\ sel <> "url" /\ sel <> "text").
Proof. unfold supported_outputs. simpl. intuition congruence. Qed.

Lemma fromStream_selectors (s : stream_id) (ty : option string) (w : world)
      (r : rstream) (l : list bytes) :
  streams w !! s = Some r -> locked r = false -> delivers r = Closes (List.map CBytes l) ->
  fromStream (VReadableStream s) (Some "blob") ty w
  = (Fulfilled (VBlob (default "application/octet-stream" ty) (concat l)), after_read s r w)
  /\ fromStream (VReadableStream s) (Some "buffer") ty w
     = (Fulfilled (VArrayBuffer (concat l)), after_read s r w)
  /\ fromStream (VReadableStream s) (Some "bytes") ty w
     = (Fulfilled (VUint8Array (concat l)), after_read s r w)
  /\ fromStream (VReadableStream s) (Some "hex") ty w
     = (Fulfilled (VString (of_ascii (toHex (concat l)))), after_read s r w)
  /\ fromStream (VReadableStream s) (Some "text") ty w
     = (Fulfilled (VString (Utf8.decode (concat l))), after_read s r w).
Proof.
  intros Hr Hl Hd. pose proof (closes_not_spent r _ Hd) as Hsp.
  repeat split; select_case;
    rewrite async_bind, (new_Response_unlocked s _ w r Hr Hl Hsp), async_bind;
    unfold await, Response_blob, Response_text, then_;
    rewrite (Response_bytes_spec s _ w r l Hr Hl Hd); reflexivity.
Qed.

Lemma fromStream_rejects_with (s : stream_id) (sel ty : string) (w : world)
      (r : rstream) (e : thrown) :
  streams w !! s = Some r -> locked r = false -> delivers r = Errors e ->
  In sel reading_outputs ->
  fromStream (VReadableStream s) (Some sel) (Some ty) w = (Rejected e, after_read s r w).
Proof.
  intros Hr Hl Hd Hsel. pose proof (errors_not_spent r _ Hd) as Hsp.
  unfold reading_outputs in Hsel. simpl in Hsel.
  repeat (destruct Hsel as [<- | Hsel]; [
    select_case;
    rewrite async_bind, (new_Response_unlocked s _ w r Hr Hl Hsp), async_bind;
    unfold await, Response_blob, Response_text, then_;
    rewrite (Response_bytes_errors s _ w r e Hr Hl Hd); reflexivity |]).
  contradiction.
Qed.

Lemma fromStream_hands_stream_on_response (s : stream_id) (ty : option string) (w : world)
      (r : rstream) :
  streams w !! s = Some r -> locked r = false -> spent (delivers r) = false ->
  fromStream (VReadableStream s) (Some "response") ty w = (Fulfilled (VResponse (Some s)), w).
Proof.
  intros Hr Hl Hsp. select_case.
  rewrite async_bind, (new_Response_unlocked s None w r Hr Hl Hsp). reflexivity.
Qed.

(** ** [fromStream] on its own *)

(** X1: on a stream that is neither locked nor disturbed (not yet read
    from, not cancelled), the selectors 'stream' and 'response' hand the
    stream on without touching it: the result is the stream itself, or a
    Response whose body is that stream, and the world (locks and reads
    included) is unchanged. *)
Theorem fromStream_hands_stream_on (s : stream_id) (ty : option string) (w : world) :
  usable w s ->
  fromStream (VReadableStream s) (Some "stream") ty w = (Fulfilled (VReadableStream s), w)
  /\ fromStream (VReadableStream s) (Some "response") ty w = (Fulfilled (VResponse (Some s)), w).
Proof.
  intros (r & Hr & Hl & Hsp). split; [reflexivity |].
  apply (fromStream_hands_stream_on_response s ty w r Hr Hl Hsp).
Qed.

(** X2: on a stream that is not locked and delivers binary chunks, the
    selectors 'blob', 'buffer', 'bytes', 'hex' and 'text' all read the
    stream to its end and return the concatenation of its chunks: as a Blob
    and as its UTF-8 decoding, with the default type
    application/octet-stream; and, whatever the type option, as an
    ArrayBuffer, a Uint8Array and its lower-case hex digits.  Afterwards the
    stream is locked and the log ends with the read of all its chunks. *)
Theorem fromStream_reads_to_the_end (s : stream_id) (ty : option string) (w : world)
        (r : rstream) (l : list bytes) :
  streams w !! s = Some r -> locked r = false -> delivers r = Closes (List.map CBytes l) ->
  let b := concat l in
  let w' := after_read s r w in
  let octets := "application/octet-stream" in
  (fromStream (VReadableStream s) (Some "blob") (Some octets) w
   = (Fulfilled (VBlob octets b), w')
   /\ fromStream (VReadableStream s) (Some "blob") None w = (Fulfilled (VBlob octets b), w')
   /\ fromStream (VReadableStream s) (Some "buffer") ty w = (Fulfilled (VArrayBuffer b), w')
   /\ fromStream (VReadableStream s) (Some "bytes") ty w = (Fulfilled (VUint8Array b), w')
   /\ fromStream (VReadableStream s) (Some "hex") ty w
      = (Fulfilled (VString (of_ascii (toHex b))), w')
   /\ fromStream (VReadableStream s) (Some "text") (Some octets) w
      = (Fulfilled (VString (Utf8.decode b)), w'))
  /\ (exists r', streams w' !! s = Some r' /\ locked r' = true)
  /\ reads w' = reads w
                ++ List.map (fun u => (u, chunk_count (streams w) u)) (rev (upstream r))
                ++ [(s, length l)].
Proof.
  intros Hr Hl Hd b w' octets. split; [| split].
  - destruct (fromStream_selectors s (Some octets) w r l Hr Hl Hd) as (Hblob & _ & _ & _ & Htext).
    destruct (fromStream_selectors s None w r l Hr Hl Hd) as (Hblob0 & _).
    destruct (fromStream_selectors s ty w r l Hr Hl Hd) as (_ & Hbuf & Hbytes & Hhex & _).
    repeat split; assumption.
  - eexists. split; [apply lookup_insert_eq | reflexivity].
  - subst w'. unfold after_read. cbn [reads]. unfold chunk_count at 2.
    rewrite Hr. destruct r as [d lk u]. cbn [delivers] in Hd. subst d.
    cbn [upstream]. rewrite length_map. reflexivity.
Qed.

(** X3: the selector 'url', with the default type, reads the stream as
    'blob' does, registers the Blob (of type application/octet-stream, with
    the stream's bytes) with the platform and returns the URL the platform
    registered it under: the registry grows by exactly this entry. *)
Theorem fromStream_url_registers_blob (s : stream_id) (w : world)
        (r : rstream) (l : list bytes) :
  streams w !! s = Some r -> locked r = false -> delivers r = Closes (List.map CBytes l) ->
  exists u w',
    fromStream (VReadableStream s) (Some "url") None w = (Fulfilled (VString u), w')
    /\ object_urls w' = object_urls w ++ [(u, ("application/octet-stream", concat l))]
    /\ streams w' = streams (after_read s r w) /\ reads w' = reads (after_read s r w).
Proof.
  intros Hr Hl Hd. pose proof (closes_not_spent r _ Hd) as Hsp.
  do 2 eexists. split.
  - select_case.
    rewrite async_bind, (new_Response_unlocked s _ w r Hr Hl Hsp), async_bind.
    unfold await, Response_blob, then_.
    rewrite (Response_bytes_spec s _ w r l Hr Hl Hd). reflexivity.
  - cbn. repeat split.
Qed.

(** X4: a locked stream is only accepted by 'stream', which returns it as
    it is; every other supported selector is rejected by the Response
    constructor, before anything is read, and the world is unchanged. *)
Theorem fromStream_locked_stream (s : stream_id) (sel : string) (ty : option string)
        (w : world) (r : rstream) :
  streams w !! s = Some r -> locked r = true -> In sel supported_outputs ->
  fromStream (VReadableStream s) (Some sel) ty w
  = if sel =? "stream" then (Fulfilled (VReadableStream s), w) else (Rejected body_error, w).
Proof.
  intros Hr Hl Hsel. unfold supported_outputs in Hsel. simpl in Hsel.
  repeat (destruct Hsel as [<- | Hsel]; [
    select_case;
    first [ reflexivity
          | rewrite async_bind, (new_Response_locked s _ w r Hr Hl); reflexivity ] |]).
  contradiction.
Qed.


(** ** What [toStream] leaves alone *)

Lemma store_fresh_next (w : world) (s : stream_id) (r : rstream) :
  store_fresh w -> streams w !! s = Some r -> s < next_id w.
Proof.
  intros Hfresh Hr. destruct (Nat.lt_ge_cases s (next_id w)) as [Hlt | Hge]; [exact Hlt |].
  pose proof (Hfresh s Hge) as Hnone. unfold stream_id in *. congruence.
Qed.

Lemma new_stream_keeps (o : outcome) (up : list stream_id) (w w' : world)
      (res : result stream_id) :
  store_fresh w -> new_stream o up w = (res, w') ->
  (forall s r, streams w !! s = Some r -> streams w' !! s = Some r)
  /\ store_fresh w' /\ reads w' = reads w.
Proof.
  intros Hfresh [= _ <-]. split; [| split; [| reflexivity]].
  - intros s r Hr. cbn. rewrite lookup_insert_ne; [exact Hr |].
    apply store_fresh_next in Hr; [lia | exact Hfresh].
  - intros s Hs. cbn in *. rewrite lookup_insert_ne by lia. apply Hfresh. lia.
Qed.

Lemma pipeThrough_keeps (src : stream_id) (t : transform) (sg : option AbortSignal)
      (w w' : world) (res : result stream_id) :
  store_fresh w -> pipeThrough src t sg w = (res, w') ->
  (forall s r, s <> src -> streams w !! s = Some r -> streams w' !! s = Some r)
  /\ store_fresh w'.
Proof.
  intros Hfresh. unfold pipeThrough.
  destruct (streams w !! src) as [r0 |] eqn:Hsrc.
  - pose proof (store_fresh_next w src r0 Hfresh Hsrc) as Hlt.
    destruct (locked r0).
    + intros [= _ <-]. split; [intros; assumption | exact Hfresh].
    + destruct sg as [[[] why] |]; intros [= _ <-];
        (split;
         [ intros s r Hne Hr; cbn;
           pose proof (store_fresh_next w s r Hfresh Hr);
           rewrite lookup_insert_ne by lia; rewrite lookup_insert_ne by congruence; exact Hr
         | intros s Hs; cbn in *;
           rewrite lookup_insert_ne by lia; rewrite lookup_insert_ne by lia;
           apply Hfresh; lia ]).
  - intros [= _ <-]. split; [intros; assumption | exact Hfresh].
Qed.

(** X6: [toStream] only ever adds streams.  In a store whose free addresses
    are those from [next_id] on, every stream that exists before the call is
    exactly the same after it (not locked, not emptied), whatever the input,
    its own stream included; no chunk is read; and the store keeps its
    shape. *)
Theorem toStream_keeps_existing_streams (data : jsval) (w w' : world)
        (res : result stream_id) :
  store_fresh w -> toStream data w = (res, w') ->
  (forall s r, streams w !! s = Some r -> streams w' !! s = Some r)
  /\ reads w' = reads w /\ store_fresh w'.
Proof.
  intros Hfresh Hts.
  pose proof (toStream_reads data w w' res Hts) as Hreads.
  destruct data as [| | | | | | | str | s | b | | b | ty b | [s |] | [s |] | c];
    simpl in Hts;
    try (injection Hts as _ <-; repeat split; [intros; assumption | exact Hfresh]);
    try (destruct (new_stream_keeps _ _ _ _ _ Hfresh Hts) as (Hk & Hf & _);
         repeat split; assumption).
  unfold bind, new_ReadableStream in Hts.
  destruct (new_stream (Closes [CText str]) [] w) as [[src | e] w0] eqn:Hnew.
  - destruct (new_stream_keeps _ _ _ _ _ Hfresh Hnew) as (Hk0 & Hf0 & _).
    assert (Hsrc : src = next_id w) by (injection Hnew as <- _; reflexivity).
    destruct (pipeThrough_keeps _ _ _ _ _ _ Hf0 Hts) as (Hk1 & Hf1).
    split; [| split; assumption].
    intros s r Hr. apply Hk1; [| apply Hk0, Hr].
    apply store_fresh_next in Hr; [lia | exact Hfresh].
  - discriminate Hnew.
Qed.


(** ** The streaming forms *)

(** X8: when [compressStream] or [decompressStream] throws, for whatever
    reason (an aborted signal, an unknown format, a stream that is locked),
    the world is unchanged: the source has not been locked and can still be
    used. *)
Theorem stream_forms_fail_cleanly (stream : stream_id) (o : options) (w w' : world)
        (e : thrown) :
  compressStream stream o w = (Throw e, w') \/ decompressStream stream o w = (Throw e, w') ->
  w' = w.
Proof.
  unfold compressStream, decompressStream, bind, new_CompressionStream, new_DecompressionStream.
  destruct (aborted_reason (signal o)); [intros [[= _ <-] | [= _ <-]]; reflexivity |].
  destruct (supported_format (default "gzip" (format o)));
    [| destruct (format_refusal (default "gzip" (format o)));
       [intros [[= _ <-] | [= _ <-]]; reflexivity |]].
  all: unfold ret, pipeThrough.
  all: destruct (streams w !! stream) as [r |]; [| intros [[= _ <-] | [= _ <-]]; reflexivity].
  all: destruct (locked r); [intros [[= _ <-] | [= _ <-]]; reflexivity |].
  all: intros [H | H]; discriminate H.
Qed.

(** ** Formats, signals and stream output *)

(** The steps of [_transform] before [fromStream], for a source that is not
    locked. *)
Lemma _transform_pipeline (method : string) (data : jsval) (o : transform_options)
      (w w1 : world) (src : stream_id) (r : rstream) :
  toStream data w = (Return src, w1) ->
  streams w1 !! src = Some r -> locked r = false ->
  supported_format (default DEFAULT_FORMAT (t_format o)) = true ->
  let f := default DEFAULT_FORMAT (t_format o) in
  let t := if method =? "compress" then CompressionStream f else DecompressionStream f in
  exists w2 r2,
    streams w2 !! next_id w1 = Some r2 /\ locked r2 = false
    /\ delivers r2 = match aborted_reason (t_signal o) with
                     | Some why => Errors (Thrown why)
                     | None => transform_outcome t (delivers r)
                     end
    /\ _transform method data o w =
       fromStream (VReadableStream (next_id w1)) (Some (default "blob" (t_output o)))
         (Some (default "application/octet-stream" (t_type o))) w2.
Proof.
  intros Hts Hr Hl Hsup f t.
  destruct (pipeThrough src t (t_signal o) w1) as [res w2] eqn:Hpipe.
  assert (Hres : res = Return (next_id w1)
                 /\ exists r2, streams w2 !! next_id w1 = Some r2 /\ locked r2 = false
                    /\ delivers r2 = match aborted_reason (t_signal o) with
                                     | Some why => Errors (Thrown why)
                                     | None => transform_outcome t (delivers r)
                                     end).
  { unfold pipeThrough in Hpipe. rewrite Hr, Hl in Hpipe.
    destruct (t_signal o) as [[[] why] |]; injection Hpipe as <- <-;
      (split; [reflexivity |]; eexists; split; [simpl; apply lookup_insert_eq |];
       split; reflexivity). }
  destruct Hres as (-> & r2 & Hr2 & Hl2 & Hd2).
  exists w2, r2. repeat split; try assumption.
  unfold _transform. rewrite async_bind, Hts, async_bind.
  unfold new_CompressionStream, new_DecompressionStream. subst f t. rewrite Hsup.
  destruct (method =? "compress"); unfold ret;
    rewrite async_bind, Hpipe, async_await; reflexivity.
Qed.

(** X9: a format outside the three the library names is for the platform
    to accept or refuse.  When the codec's constructor refuses it, that
    happens after [toStream] and before any pipe: [compress] and
    [decompress] reject with the constructor's error, whatever the output
    selector, in the world [toStream] left; a stream passed as input is
    therefore still untouched. *)
Theorem unknown_format_rejected (data : jsval) (o : options) (w w1 : world) (src : stream_id)
        (e : thrown) :
  let f := default DEFAULT_FORMAT (format o) in
  supported_format f = false -> format_refusal f = Some e ->
  toStream data w = (Return src, w1) ->
  compress data o w = (Rejected e, w1)
  /\ decompress data o w = (Rejected e, w1)
  /\ (forall s, data = VReadableStream s -> w1 = w).
Proof.
  intros f Hsup Hno Hts. subst f. split; [| split].
  - unfold compress. rewrite async_await. unfold _transform.
    rewrite async_bind, Hts, async_bind.
    cbn [t_format default from_option id String.eqb Ascii.eqb Bool.eqb].
    unfold new_CompressionStream. rewrite Hsup, Hno. reflexivity.
  - unfold decompress, _transform.
    rewrite async_bind, Hts, async_bind.
    cbn [t_format default from_option id String.eqb Ascii.eqb Bool.eqb].
    unfold new_DecompressionStream. rewrite Hsup, Hno. reflexivity.
  - intros s ->. simpl in Hts. injection Hts as _ <-. reflexivity.
Qed.

(** X10: with a signal that is already aborted, [compress] and [decompress]
    of an accepted input reject with the signal's reason for every selector
    that reads the result (the default included); with 'stream' they still
    fulfil, with a stream that fails with that reason when it is read. *)
Theorem aborted_signal_reaches_the_caller (data : jsval) (out : option string) (f : string)
        (why : jsval) (w w1 : world) (src : stream_id) :
  let sg := Some {| aborted := true; reason := why |} in
  In (default "blob" out) reading_outputs -> supported_format f = true ->
  toStream data w = (Return src, w1) -> unlocked w1 src ->
  (exists w', compress data {| output := out; format := Some f; signal := sg |} w
              = (Rejected (Thrown why), w'))
  /\ (exists w', decompress data {| output := out; format := Some f; signal := sg |} w
                 = (Rejected (Thrown why), w'))
  /\ (exists w' r',
        compress data {| output := Some "stream"; format := Some f; signal := sg |} w
        = (Fulfilled (VReadableStream (next_id w1)), w')
        /\ streams w' !! next_id w1 = Some r' /\ delivers r' = Errors (Thrown why)).
Proof.
  intros sg Hsel Hsup Hts (r & Hr & Hl). split; [| split].
  - unfold compress. rewrite async_await.
    edestruct (_transform_pipeline "compress" data) as (w2 & r2 & Hr2 & Hl2 & Hd2 & ->);
      [exact Hts | exact Hr | exact Hl | exact Hsup |].
    cbn [t_output t_type t_signal output format signal aborted_reason aborted reason
         default from_option id] in *.
    eexists. apply (fromStream_rejects_with _ _ _ w2 r2); assumption.
  - unfold decompress.
    edestruct (_transform_pipeline "decompress" data) as (w2 & r2 & Hr2 & Hl2 & Hd2 & ->);
      [exact Hts | exact Hr | exact Hl | exact Hsup |].
    cbn [t_output t_type t_signal output format signal aborted_reason aborted reason
         default from_option id] in *.
    eexists. apply (fromStream_rejects_with _ _ _ w2 r2); assumption.
  - unfold compress. rewrite async_await.
    edestruct (_transform_pipeline "compress" data) as (w2 & r2 & Hr2 & Hl2 & Hd2 & ->);
      [exact Hts | exact Hr | exact Hl | exact Hsup |].
    cbn [t_output t_type t_signal output format signal aborted_reason aborted reason
         default from_option id] in *.
    exists w2, r2. repeat split; assumption.
Qed.

(** X11: with the selector 'stream', [compress] of binary chunks fulfils
    with a new stream, the readable end of the codec: it is neither locked
    nor disturbed, and it delivers the codec's output for the input's
    chunks. *)
Theorem stream_output_is_codec_stream (data : jsval) (f : string) (sg : option AbortSignal)
        (w w1 : world) (src : stream_id) (r : rstream) (cs : list bytes) :
  supported_format f = true -> aborted_reason sg = None ->
  toStream data w = (Return src, w1) ->
  streams w1 !! src = Some r -> locked r = false -> delivers r = Closes (List.map CBytes cs) ->
  exists w',
    compress data {| output := Some "stream"; format := Some f; signal := sg |} w
    = (Fulfilled (VReadableStream (next_id w1)), w')
    /\ usable w' (next_id w1)
    /\ stream_bytes w' (next_id w1) = Some (concat (deflate_chunks f cs)).
Proof.
  intros Hsup Hsg Hts Hr Hl Hd. unfold compress. rewrite async_await.
  edestruct (_transform_pipeline "compress" data) as (w2 & r2 & Hr2 & Hl2 & Hd2 & ->);
    [exact Hts | exact Hr | exact Hl | exact Hsup |].
  cbn [t_output t_type t_signal t_format output format signal default from_option id
       String.eqb Ascii.eqb Bool.eqb] in *.
  rewrite Hsg, Hd in Hd2. cbn [transform_outcome transform_chunks] in Hd2.
  rewrite buffer_sources_bytes in Hd2.
  exists w2. split; [reflexivity |].
  split; [exists r2; split; [exact Hr2 |]; split; [exact Hl2 | rewrite Hd2; reflexivity] |].
  unfold stream_bytes. rewrite Hr2. destruct r2 as [d lk u]. cbn [delivers] in Hd2. subst d.
  rewrite buffer_sources_bytes. reflexivity.
Qed.

(** ** Round trips in other representations *)

Lemma compress_with (data : jsval) (f : string) (w w1 : world) (src : stream_id)
      (r : rstream) (cs : list bytes) :
  supported_format f = true ->
  toStream data w = (Return src, w1) ->
  streams w1 !! src = Some r -> locked r = false -> delivers r = Closes (List.map CBytes cs) ->
  exists w2 r2,
    streams w2 !! next_id w1 = Some r2 /\ locked r2 = false
    /\ delivers r2 = Closes (List.map CBytes (deflate_chunks f cs))
    /\ forall sel,
        compress data {| output := Some sel; format := Some f; signal := None |} w
        = fromStream (VReadableStream (next_id w1)) (Some sel)
            (Some "application/octet-stream") w2.
Proof.
  intros Hsup Hts Hr Hl Hd.
  destruct (pipeThrough_delivers src (CompressionStream f) None w1 r Hr Hl eq_refl)
    as (w2 & Hpipe & Hs2).
  rewrite Hd in Hs2. cbn [transform_outcome transform_chunks] in Hs2.
  rewrite buffer_sources_bytes in Hs2.
  exists w2. eexists. split; [exact Hs2 |]. repeat split.
  intros sel. unfold compress. rewrite async_await.
  apply (_transform_after_pipe "compress" data
           {| t_output := Some sel; t_format := Some f; t_type := None; t_signal := None |}
           w w1 w2 src (next_id w1) Hts Hsup Hpipe).
Qed.

Lemma decompress_with (data : jsval) (f : string) (w w1 : world) (src : stream_id)
      (r : rstream) (ds cs : list bytes) :
  codec_inverts P -> supported_format f = true ->
  toStream data w = (Return src, w1) ->
  streams w1 !! src = Some r -> locked r = false -> delivers r = Closes (List.map CBytes ds) ->
  concat ds = concat (deflate_chunks f cs) ->
  exists w2 r2 out,
    streams w2 !! next_id w1 = Some r2 /\ locked r2 = false
    /\ delivers r2 = Closes (List.map CBytes out) /\ concat out = concat cs
    /\ forall sel,
        decompress data {| output := Some sel; format := Some f; signal := None |} w
        = fromStream (VReadableStream (next_id w1)) (Some sel)
            (Some "application/octet-stream") w2.
Proof.
  intros Hcodec Hsup Hts Hr Hl Hd Hds.
  destruct (Hcodec f cs ds Hsup Hds) as (out & Hinf & Hout).
  destruct (pipeThrough_delivers src (DecompressionStream f) None w1 r Hr Hl eq_refl)
    as (w2 & Hpipe & Hs2).
  rewrite Hd in Hs2. cbn [transform_outcome transform_chunks] in Hs2.
  rewrite buffer_sources_bytes, Hinf in Hs2.
  exists w2. eexists. exists out. split; [exact Hs2 |]. repeat split; [exact Hout |].
  intros sel. unfold decompress.
  apply (_transform_after_pipe "decompress" data
           {| t_output := Some sel; t_format := Some f; t_type := None; t_signal := None |}
           w w1 w2 src (next_id w1) Hts Hsup Hpipe).
Qed.

(** X12: what [compress] returned as a Blob comes back from [decompress]
    in each representation that reads the result: the original bytes as
    ArrayBuffer and as Uint8Array, their hex digits, and their UTF-8
    decoding; for each format, on a platform whose decompression inverts
    its compression. *)
Theorem roundtrip_in_every_representation (f : string) (b : bytes) (data : jsval) (w : world) :
  codec_inverts P -> blob_stream_faithful P ->
  In f supported_formats -> container_bytes data = Some b ->
  exists c w1,
    compress data (only_format f) w = (Fulfilled (VBlob "application/octet-stream" c), w1)
    /\ (exists w2, decompress (VBlob "application/octet-stream" c)
                     {| output := Some "buffer"; format := Some f; signal := None |} w1
                   = (Fulfilled (VArrayBuffer b), w2))
    /\ (exists w2, decompress (VBlob "application/octet-stream" c)
                     {| output := Some "bytes"; format := Some f; signal := None |} w1
                   = (Fulfilled (VUint8Array b), w2))
    /\ (exists w2, decompress (VBlob "application/octet-stream" c)
                     {| output := Some "hex"; format := Some f; signal := None |} w1
                   = (Fulfilled (VString (of_ascii (toHex b))), w2))
    /\ (exists w2, decompress (VBlob "application/octet-stream" c)
                     {| output := Some "text"; format := Some f; signal := None |} w1
                   = (Fulfilled (VString (Utf8.decode b)), w2)).
Proof.
  intros Hcodec Hblob Hf Hb. apply supported_format_In in Hf.
  destruct (toStream_container data b w Hblob Hb) as (cs & wa & ra & Hts & Hra & Hla & Hda & Hcs).
  destruct (compress_blob data f w wa _ ra cs Hf Hts Hra Hla Hda) as (w1 & Hcompress).
  set (c := concat (deflate_chunks f cs)) in *.
  destruct (toStream_container (VBlob "application/octet-stream" c) c w1 Hblob eq_refl)
    as (ds & wb & rb & Hts' & Hrb & Hlb & Hdb & Hds).
  destruct (decompress_with _ f w1 wb _ rb ds cs Hcodec Hf Hts' Hrb Hlb Hdb Hds)
    as (w2 & r2 & out & Hr2 & Hl2 & Hd2 & Hout & Hdec).
  destruct (fromStream_selectors _ (Some "application/octet-stream") w2 r2 out Hr2 Hl2 Hd2)
    as (_ & Hbuf & Hbytes & Hhex & Htext).
  rewrite Hout, Hcs in *.
  exists c, w1. split; [exact Hcompress |].
  repeat split; eexists; rewrite Hdec; eassumption.
Qed.

(** X13: whatever [compress] returns for the selectors 'stream',
    'response', 'blob', 'buffer' and 'bytes' is an input [decompress]
    accepts, and decompressing it gives back the original bytes; for each
    format, on a platform whose decompression inverts its compression. *)
Theorem compress_output_feeds_decompress (sel f : string) (b : bytes) (data : jsval)
        (w : world) :
  codec_inverts P -> blob_stream_faithful P ->
  In f supported_formats -> container_bytes data = Some b -> In sel container_outputs ->
  exists v w1 w2,
    compress data {| output := Some sel; format := Some f; signal := None |} w
    = (Fulfilled v, w1)
    /\ decompress v {| output := Some "bytes"; format := Some f; signal := None |} w1
       = (Fulfilled (VUint8Array b), w2).
Proof.
  intros Hcodec Hblob Hf Hb Hsel. apply supported_format_In in Hf.
  destruct (toStream_container data b w Hblob Hb) as (cs & wa & ra & Hts & Hra & Hla & Hda & Hcs).
  destruct (compress_with data f w wa _ ra cs Hf Hts Hra Hla Hda)
    as (wp & rp & Hrp & Hlp & Hdp & Hcompress).
  set (c := concat (deflate_chunks f cs)) in *.
  destruct (fromStream_selectors _ (Some "application/octet-stream") wp rp _ Hrp Hlp Hdp)
    as (Hblob' & Hbuf & Hbytes & _ & _).
  fold c in Hblob', Hbuf, Hbytes.
  assert (Hback : forall v w1 src wb rb ds,
             toStream v w1 = (Return src, wb) -> streams wb !! src = Some rb ->
             locked rb = false -> delivers rb = Closes (List.map CBytes ds) ->
             concat ds = c ->
             exists w2, decompress v {| output := Some "bytes"; format := Some f;
                                        signal := None |} w1
                        = (Fulfilled (VUint8Array b), w2)).
  { intros v w1 src wb rb ds Hts' Hrb Hlb Hdb Hds.
    destruct (decompress_with v f w1 wb src rb ds cs Hcodec Hf Hts' Hrb Hlb Hdb Hds)
      as (w2 & r2 & out & Hr2 & Hl2 & Hd2 & Hout & Hdec).
    destruct (fromStream_selectors _ (Some "application/octet-stream") w2 r2 out Hr2 Hl2 Hd2)
      as (_ & _ & Hres & _ & _).
    eexists. rewrite Hdec, Hres, Hout, Hcs. reflexivity. }
  unfold container_outputs in Hsel. simpl in Hsel.
  destruct Hsel as [<- | [<- | [<- | [<- | [<- | []]]]]].
  - (* stream *)
    destruct (Hback (VReadableStream (next_id wa)) wp (next_id wa) wp rp
                (deflate_chunks f cs) eq_refl Hrp Hlp Hdp eq_refl) as (w2 & Hdec).
    exists (VReadableStream (next_id wa)), wp, w2. split; [| exact Hdec].
    rewrite Hcompress. reflexivity.
  - (* response *)
    destruct (Hback (VResponse (Some (next_id wa))) wp (next_id wa) wp rp
                (deflate_chunks f cs) eq_refl Hrp Hlp Hdp eq_refl) as (w2 & Hdec).
    exists (VResponse (Some (next_id wa))), wp, w2. split; [| exact Hdec].
    rewrite Hcompress.
    apply (fromStream_hands_stream_on_response (next_id wa) _ wp rp Hrp Hlp).
    rewrite Hdp. reflexivity.
  - (* blob *)
    destruct (toStream_container (VBlob "application/octet-stream" c) c
                (after_read (next_id wa) rp wp) Hblob eq_refl)
      as (ds & wb & rb & Hts' & Hrb & Hlb & Hdb & Hds).
    destruct (Hback _ _ _ wb rb ds Hts' Hrb Hlb Hdb Hds) as (w2 & Hdec).
    do 3 eexists. split; [rewrite Hcompress; exact Hblob' | exact Hdec].
  - (* buffer *)
    destruct (toStream_container (VArrayBuffer c) c
                (after_read (next_id wa) rp wp) Hblob eq_refl)
      as (ds & wb & rb & Hts' & Hrb & Hlb & Hdb & Hds).
    destruct (Hback _ _ _ wb rb ds Hts' Hrb Hlb Hdb Hds) as (w2 & Hdec).
    do 3 eexists. split; [rewrite Hcompress; exact Hbuf | exact Hdec].
  - (* bytes *)
    destruct (toStream_container (VUint8Array c) c
                (after_read (next_id wa) rp wp) Hblob eq_refl)
      as (ds & wb & rb & Hts' & Hrb & Hlb & Hdb & Hds).
    destruct (Hback _ _ _ wb rb ds Hts' Hrb Hlb Hdb Hds) as (w2 & Hdec).
    do 3 eexists. split; [rewrite Hcompress; exact Hbytes | exact Hdec].
Qed.

(** ** Streaming round trip *)

Lemma stream_forms_invert (s : stream_id) (f : string) (o1 o2 : option string)
      (sg1 sg2 : option AbortSignal) (w : world) (r : rstream) (cs : list bytes) :
  codec_inverts P -> supported_format f = true ->
  aborted_reason sg1 = None -> aborted_reason sg2 = None ->
  streams w !! s = Some r -> locked r = false -> delivers r = Closes (List.map CBytes cs) ->
  exists s1 w1 s2 w2 r2 out,
    compressStream s {| output := o1; format := Some f; signal := sg1 |} w = (Return s1, w1)
    /\ decompressStream s1 {| output := o2; format := Some f; signal := sg2 |} w1
       = (Return s2, w2)
    /\ reads w2 = reads w
    /\ streams w2 !! s2 = Some r2 /\ locked r2 = false
    /\ delivers r2 = Closes (List.map CBytes out) /\ concat out = concat cs.
Proof.
  intros Hcodec Hsup Hsg1 Hsg2 Hr Hl Hd.
  destruct (pipeThrough_delivers s (CompressionStream f) None w r Hr Hl eq_refl)
    as (w1 & Hp1 & Hs1).
  rewrite Hd in Hs1. cbn [transform_outcome transform_chunks] in Hs1.
  rewrite buffer_sources_bytes in Hs1.
  destruct (Hcodec f cs (deflate_chunks f cs) Hsup eq_refl) as (out & Hinf & Hout).
  destruct (pipeThrough_delivers (next_id w) (DecompressionStream f) None w1 _ Hs1
              eq_refl eq_refl) as (w2 & Hp2 & Hs2).
  cbn [delivers transform_outcome transform_chunks] in Hs2.
  rewrite buffer_sources_bytes, Hinf in Hs2.
  exists (next_id w), w1, (next_id w1), w2. eexists. exists out.
  split; [| split; [| split; [| split; [exact Hs2 |]]]].
  - unfold compressStream. cbn [format signal default from_option id]. rewrite Hsg1.
    unfold bind, new_CompressionStream. rewrite Hsup. unfold ret. exact Hp1.
  - unfold decompressStream. cbn [format signal default from_option id]. rewrite Hsg2.
    unfold bind, new_DecompressionStream. rewrite Hsup. unfold ret. exact Hp2.
  - rewrite (pipeThrough_reads _ _ _ _ _ _ Hp2). apply (pipeThrough_reads _ _ _ _ _ _ Hp1).
  - repeat split. exact Hout.
Qed.

(** X14: [decompressStream] undoes [compressStream]: piping a stream of
    binary chunks through both, with the same format and signals that are
    not aborted, gives a stream that delivers the original bytes, as
    reading it with 'bytes' shows.  The two calls only set the pipes up:
    neither reads a chunk before it returns. *)
Theorem stream_forms_roundtrip (s : stream_id) (f : string) (sg1 sg2 : option AbortSignal)
        (w : world) (r : rstream) (cs : list bytes) :
  codec_inverts P -> In f supported_formats ->
  aborted_reason sg1 = None -> aborted_reason sg2 = None ->
  streams w !! s = Some r -> locked r = false -> delivers r = Closes (List.map CBytes cs) ->
  exists s1 w1 s2 w2 w3,
    compressStream s {| output := None; format := Some f; signal := sg1 |} w = (Return s1, w1)
    /\ decompressStream s1 {| output := None; format := Some f; signal := sg2 |} w1
       = (Return s2, w2)
    /\ reads w2 = reads w
    /\ stream_bytes w2 s2 = Some (concat cs)
    /\ fromStream (VReadableStream s2) (Some "bytes") None w2
       = (Fulfilled (VUint8Array (concat cs)), w3).
Proof.
  intros Hcodec Hf Hsg1 Hsg2 Hr Hl Hd. apply supported_format_In in Hf.
  destruct (stream_forms_invert s f None None sg1 sg2 w r cs Hcodec Hf Hsg1 Hsg2 Hr Hl Hd)
    as (s1 & w1 & s2 & w2 & r2 & out & Hc & Hdc & Hreads & Hr2 & Hl2 & Hd2 & Hout).
  destruct (fromStream_selectors s2 None w2 r2 out Hr2 Hl2 Hd2)
    as (_ & _ & Hbytes & _ & _).
  exists s1, w1, s2, w2. eexists.
  split; [exact Hc |]. split; [exact Hdc |]. split; [exact Hreads |]. split.
  - unfold stream_bytes. rewrite Hr2. destruct r2 as [d lk u]. cbn [delivers] in Hd2. subst d.
    rewrite buffer_sources_bytes. cbn. rewrite Hout. reflexivity.
  - rewrite <- Hout. exact Hbytes.
Qed.

End Further.

(** * Properties of [streamFile] *)

Section Files.

Context {P : Platform} {E : Node}.

(** X15: when [streamFile] throws, whichever of its checks did, no stream
    has been created and the world is as before. *)
Theorem streamFile_fails_cleanly (path : file_path) (o : options) (w w' : world) (e : thrown) :
  streamFile path o w = (Throw e, w') -> w' = w.
Proof.
  unfold streamFile, streamFile_url, file_stream.
  destruct cwd as [dir |]; [| intros [= _ <-]; reflexivity].
  assert (Hurl : forall u,
             (if negb (protocol u =? "file:")
              then throw (TypeError ("Cannot read non-file URL: " +:+ dquote +:+ href u
                                     +:+ dquote +:+ "."))
              else match aborted_reason (signal o) with
                   | Some why => throw (Thrown why)
                   | None => match read_file (pathname u) with
                             | Return cs => new_stream (Closes (List.map CBytes cs)) []
                             | Throw e0 => new_stream (Errors e0) []
                             end
                   end) w = (Throw e, w') -> w' = w).
  { intros u. destruct (negb (protocol u =? "file:")); [intros [= _ <-]; reflexivity |].
    destruct (aborted_reason (signal o)); [intros [= _ <-]; reflexivity |].
    destruct (read_file (pathname u)); discriminate. }
  destruct path as [u | v]; [apply Hurl |].
  destruct v; try (intros [= _ <-]; reflexivity).
  destruct (URL_parse s ("file://" +:+ dir)) as [u |]; [apply Hurl |].
  intros [= _ <-]. reflexivity.
Qed.

(** X16: the order of [streamFile]'s checks.  In node, for a path that is
    or resolves to a URL: a URL that is not a [file:] URL is refused with
    a TypeError naming it, even when the signal is aborted; a [file:] URL
    with an aborted signal makes [streamFile] throw the signal's reason,
    and the file is not opened (no stream exists afterwards). *)
Theorem streamFile_checks_in_order (path : file_path) (u : url) (dir : string)
        (out fmt : option string) (why : jsval) (w : world) :
  let o := {| output := out; format := fmt;
              signal := Some {| aborted := true; reason := why |} |} in
  cwd = Some dir -> resolves_to path u ->
  streamFile path o w =
  (Throw (if protocol u =? "file:" then Thrown why
          else TypeError ("Cannot read non-file URL: " +:+ dquote +:+ href u
                          +:+ dquote +:+ ".")), w).
Proof.
  intros o Hcwd Hres. unfold streamFile. rewrite Hcwd.
  assert (Hurl : streamFile_url u (signal o) w =
                 (Throw (if protocol u =? "file:" then Thrown why
                         else TypeError ("Cannot read non-file URL: " +:+ dquote +:+ href u
                                         +:+ dquote +:+ ".")), w)).
  { unfold streamFile_url. destruct (protocol u =? "file:"); reflexivity. }
  destruct path as [u' | v]; simpl in Hres.
  - subst u'. exact Hurl.
  - destruct v; try contradiction.
    destruct Hres as (dir' & Hcwd' & Hparse).
    rewrite Hcwd in Hcwd'. injection Hcwd' as <-. rewrite Hparse. exact Hurl.
Qed.



End Files.

(** ** Instances of the further properties *)

Lemma store_fresh_world_with (r : rstream) : store_fresh (world_with r).
Proof. intros s Hs. cbn in *. apply lookup_singleton_ne. lia. Qed.

Lemma fromStream_hands_stream_on_witness :
  fromStream (VReadableStream 0) (Some "stream") None sample_world
  = (Fulfilled (VReadableStream 0), sample_world)
  /\ fromStream (VReadableStream 0) (Some "response") None sample_world
     = (Fulfilled (VResponse (Some 0)), sample_world).
Proof.
  apply (@fromStream_hands_stream_on 0 None sample_world).
  exists sample_stream. repeat split.
Defined.

Lemma fromStream_reads_to_the_end_witness :
  fst (fromStream (VReadableStream 0) (Some "blob") None sample_world)
  = Fulfilled (VBlob "application/octet-stream" [x68; x69; x21])
  /\ fst (fromStream (VReadableStream 0) (Some "hex") (Some "text/plain") sample_world)
     = Fulfilled (VString (of_ascii "686921"))
  /\ reads (after_read 0 sample_stream sample_world) = [(0, 2)].
Proof.
  destruct (@fromStream_reads_to_the_end 0 (Some "text/plain") sample_world sample_stream
              [[x68; x69]; [x21]] eq_refl eq_refl eq_refl)
    as ((_ & Hblob & _ & _ & Hhex & _) & _ & Hreads).
  split; [rewrite Hblob; reflexivity |].
  split; [rewrite Hhex; reflexivity | exact Hreads].
Defined.

Lemma fromStream_url_registers_blob_witness :
  exists u w',
    fromStream (VReadableStream 0) (Some "url") None sample_world
    = (Fulfilled (VString u), w')
    /\ object_urls w' = [(u, ("application/octet-stream", [x68; x69; x21]))].
Proof.
  destruct (@fromStream_url_registers_blob 0 sample_world sample_stream
              [[x68; x69]; [x21]] eq_refl eq_refl eq_refl)
    as (u & w' & Hurl & Hreg & _).
  exists u, w'. split; [exact Hurl | exact Hreg].
Defined.

Lemma fromStream_locked_stream_witness :
  fromStream (VReadableStream 0) (Some "hex") None locked_world
  = (Rejected body_error, locked_world).
Proof.
  apply (@fromStream_locked_stream 0 "hex" None locked_world _ eq_refl eq_refl).
  simpl. tauto.
Defined.


Lemma toStream_keeps_existing_streams_witness :
  streams (snd (@toStream framing (VString hello) sample_world)) !! 0 = Some sample_stream
  /\ reads (snd (@toStream framing (VString hello) sample_world)) = [].
Proof.
  destruct (@toStream_keeps_existing_streams framing (VString hello) sample_world
              (snd (@toStream framing (VString hello) sample_world))
              (fst (@toStream framing (VString hello) sample_world))
              (store_fresh_world_with sample_stream) eq_refl)
    as (Hkeep & Hreads & _).
  split; [apply Hkeep; reflexivity | exact Hreads].
Defined.


Lemma stream_forms_fail_cleanly_witness :
  snd (@compressStream framing 0 (only_format "lz4") sample_world) = sample_world.
Proof.
  apply (@stream_forms_fail_cleanly framing 0 (only_format "lz4") sample_world
           (snd (@compressStream framing 0 (only_format "lz4") sample_world))
           (invalid_format "lz4")).
  left. reflexivity.
Defined.

Lemma unknown_format_rejected_witness :
  @compress framing (VReadableStream 0)
    {| output := Some "json"; format := Some "lz4"; signal := None |} sample_world
  = (Rejected (invalid_format "lz4"), sample_world).
Proof.
  apply (@unknown_format_rejected framing (VReadableStream 0)
           {| output := Some "json"; format := Some "lz4"; signal := None |}
           sample_world sample_world 0 (invalid_format "lz4")); reflexivity.
Defined.

Lemma aborted_signal_reaches_the_caller_witness :
  exists w', @compress framing (VReadableStream 0)
               {| output := None; format := Some "gzip";
                  signal := Some {| aborted := true; reason := VString (of_ascii "stop") |} |}
               sample_world
             = (Rejected (Thrown (VString (of_ascii "stop"))), w').
Proof.
  apply (@aborted_signal_reaches_the_caller framing (VReadableStream 0) None "gzip"
           (VString (of_ascii "stop")) sample_world sample_world 0).
  - simpl. tauto.
  - reflexivity.
  - reflexivity.
  - exists sample_stream. split; reflexivity.
Defined.

Lemma stream_output_is_codec_stream_witness :
  exists w', @compress framing (VReadableStream 0)
               {| output := Some "stream"; format := Some "deflate"; signal := None |}
               sample_world
             = (Fulfilled (VReadableStream 1), w')
             /\ usable w' 1
             /\ stream_bytes w' 1 = Some [x78; x9c; x68; x69; x21].
Proof.
  apply (@stream_output_is_codec_stream framing (VReadableStream 0) "deflate" None
           sample_world sample_world 0 sample_stream [[x68; x69]; [x21]]);
    reflexivity.
Defined.

Lemma roundtrip_in_every_representation_witness :
  exists c w1,
    @compress framing (VUint8Array [x68; x69]) (only_format "gzip") empty_world
    = (Fulfilled (VBlob "application/octet-stream" c), w1)
    /\ exists w2, @decompress framing (VBlob "application/octet-stream" c)
                    {| output := Some "hex"; format := Some "gzip"; signal := None |} w1
                  = (Fulfilled (VString (of_ascii "6869")), w2).
Proof.
  destruct (@roundtrip_in_every_representation framing "gzip" [x68; x69]
              (VUint8Array [x68; x69]) empty_world
              framing_inverts framing_blob_stream_faithful
              ltac:(simpl; tauto) eq_refl)
    as (c & w1 & Hcompress & _ & _ & Hhex & _).
  exists c, w1. split; [exact Hcompress | exact Hhex].
Defined.

Lemma compress_output_feeds_decompress_witness :
  exists v w1 w2,
    @compress framing (VArrayBuffer [x68; x69])
      {| output := Some "response"; format := Some "deflate-raw"; signal := None |} empty_world
    = (Fulfilled v, w1)
    /\ @decompress framing v
         {| output := Some "bytes"; format := Some "deflate-raw"; signal := None |} w1
       = (Fulfilled (VUint8Array [x68; x69]), w2).
Proof.
  apply (@compress_output_feeds_decompress framing "response" "deflate-raw" [x68; x69]
           (VArrayBuffer [x68; x69]) empty_world
           framing_inverts framing_blob_stream_faithful);
    [simpl; tauto | reflexivity | simpl; tauto].
Defined.

Lemma stream_forms_roundtrip_witness :
  exists s1 w1 s2 w2 w3,
    @compressStream framing 0 (only_format "gzip") sample_world = (Return s1, w1)
    /\ @decompressStream framing s1 (only_format "gzip") w1 = (Return s2, w2)
    /\ reads w2 = reads sample_world
    /\ stream_bytes w2 s2 = Some [x68; x69; x21]
    /\ fromStream (VReadableStream s2) (Some "bytes") None w2
       = (Fulfilled (VUint8Array [x68; x69; x21]), w3).
Proof.
  apply (@stream_forms_roundtrip framing 0 "gzip" None None sample_world sample_stream
           [[x68; x69]; [x21]] framing_inverts);
    [simpl; tauto | reflexivity ..].
Defined.

Lemma streamFile_fails_cleanly_witness :
  snd (@streamFile sample_node (PathValue (VNumber 9)) no_options sample_world) = sample_world.
Proof.
  apply (@streamFile_fails_cleanly sample_node (PathValue (VNumber 9)) no_options sample_world
           (snd (@streamFile sample_node (PathValue (VNumber 9)) no_options sample_world))
           (TypeError "Path must be a `file:` URL.")).
  reflexivity.
Defined.

Lemma streamFile_checks_in_order_witness :
  @streamFile sample_node (PathValue (VString (of_ascii "notes.txt")))
    (aborted_with (VString (of_ascii "stop"))) sample_world
  = (Throw (Thrown (VString (of_ascii "stop"))), sample_world).
Proof.
  apply (@streamFile_checks_in_order sample_node (PathValue (VString (of_ascii "notes.txt")))
           notes_url "/srv" None None (VString (of_ascii "stop")) sample_world).
  - reflexivity.
  - exists "/srv". split; reflexivity.
Defined.


